(** * Scrapy downloader middleware manager, Response bodies and feed export
      close: a shallow embedding and its properties.

    Sources embedded here:
    - scrapy/http/response/__init__.py      (Response construction)
    - scrapy/core/downloader/middleware.py  (DownloaderMiddlewareManager)
    - scrapy/extensions/feedexport.py       (FeedExporter, _FeedSlot)
    - scrapy/dupefilters.py                 (RFPDupeFilter)
    - scrapy/downloadermiddlewares/offsite.py (OffsiteMiddleware)
*)

From Stdlib Require Import ZArith.
From stdpp Require Import gmap strings list fin_maps.

Open Scope Z_scope.

(* ===================================================================== *)
(** ** Python objects                                                     *)
(* ===================================================================== *)

(** The identity of a Python object, what [id(obj)] and the default
    [__eq__]/[__hash__] observe. *)
Definition ident := positive.

Abbreviation bytes := (list Byte.byte).

(** Modelled from the spec: the Request class (scrapy/http/request) is not
    among the sources.  A Request is "an outbound unit of work (target +
    metadata)"; the manager never looks inside one, it only hands it on. *)
Record Request := mkRequest {
  request_id : ident;
  request_url : string;
}.

(** [class Response(object_ref)]: the attributes the manager touches are the
    identity of the instance and its body (the [body] property reads
    [_body]; the setter is [obsolete_setter], so a body never changes after
    [__init__]). *)
Record Response := mkResponse {
  response_id : ident;
  status : Z;
  _url : string;
  _body : bytes;
}.

Definition body (r : Response) : bytes := _body r.

(** What [result.__class__.__name__] and [repr(type(result))] print for an
    object that is neither of the classes above. *)
Record PyType := mkType {
  __name__ : string;
  type_repr : string;
}.

Inductive PyValue :=
| PyNone
| PyBytes (b : bytes)
| PyStr (s : string)
| PyInt (z : Z)
| PyResponse (r : Response)
| PyRequest (q : Request)
| PyObject (cls : PyType) (truth : bool).

Definition NoneType := mkType "NoneType" "<class 'NoneType'>".
Definition bytes_type := mkType "bytes" "<class 'bytes'>".
Definition str_type := mkType "str" "<class 'str'>".
Definition int_type := mkType "int" "<class 'int'>".
Definition Response_type :=
  mkType "Response" "<class 'scrapy.http.response.Response'>".
Definition Request_type :=
  mkType "Request" "<class 'scrapy.http.request.Request'>".

(** [type(v)] *)
Definition type_of (v : PyValue) : PyType :=
  match v with
  | PyNone => NoneType
  | PyBytes _ => bytes_type
  | PyStr _ => str_type
  | PyInt _ => int_type
  | PyResponse _ => Response_type
  | PyRequest _ => Request_type
  | PyObject cls _ => cls
  end.

(** What [bool(obj)] gives for a Response and for a Request, objects whose
    class decides it.  The class Response defines neither [__bool__] nor
    [__len__], so its own instances are true; a subclass may define
    either, and then an instance can be false. *)
Record Truthiness := mkTruthiness {
  response_bool : Response → bool;
  request_bool : Request → bool;
}.

(** [bool(v)], what [if v:] tests. *)
Definition truthy (truth : Truthiness) (v : PyValue) : bool :=
  match v with
  | PyNone => false
  | PyBytes b => negb (Nat.eqb (length b) 0)
  | PyStr s => negb (Nat.eqb (String.length s) 0)
  | PyInt z => negb (Z.eqb z 0)
  | PyResponse r => response_bool truth r
  | PyRequest q => request_bool truth q
  | PyObject _ t => t
  end.

Definition is_None (v : PyValue) : bool :=
  match v with PyNone => true | _ => false end.

(** [isinstance(v, Response)] *)
Definition isinstance_Response (v : PyValue) : bool :=
  match v with PyResponse _ => true | _ => false end.

(** [isinstance(v, Request)] *)
Definition isinstance_Request (v : PyValue) : bool :=
  match v with PyRequest _ => true | _ => false end.

(** [isinstance(v, (Response, Request))] *)
Definition isinstance_Response_or_Request (v : PyValue) : bool :=
  isinstance_Response v || isinstance_Request v.

(** [isinstance(v, bytes)] *)
Definition isinstance_bytes (v : PyValue) : bool :=
  match v with PyBytes _ => true | _ => false end.

(** [isinstance(v, str)] *)
Definition isinstance_str (v : PyValue) : bool :=
  match v with PyStr _ => true | _ => false end.

(** A raised exception: its class and its message. *)
Record Exception := mkException {
  exc_class : string;
  exc_message : string;
}.

Definition TypeError (msg : string) : Exception := mkException "TypeError" msg.
Definition _InvalidOutput (msg : string) : Exception :=
  mkException "_InvalidOutput" msg.

(** The attribute [getattr] finds, as a list of none or one. *)
Definition option_to_list {A} (o : option A) : list A :=
  match o with Some x => [x] | None => [] end.

(** What a call does: it returns a value or raises. *)
Inductive Outcome :=
| Return (v : PyValue)
| Raise (e : Exception).

(* ===================================================================== *)
(** ** scrapy/http/response/__init__.py                                   *)
(* ===================================================================== *)

Module Http.

(** [Response._set_body]: the bytes stored in [self._body], or the
    exception raised. *)
Definition _set_body (body : PyValue) : Exception + bytes :=
  if is_None body then inr []
  else if negb (isinstance_bytes body) then
    inl (TypeError ("Response body must be bytes. " +:+
                    "If you want to pass unicode body use TextResponse " +:+
                    "or HtmlResponse."))
  else
    match body with
    | PyBytes b => inr b
    | _ => inr []   (* not reached: [body] is a bytes object here *)
    end.

(** [Response._set_url] *)
Definition _set_url (url : PyValue) : Exception + string :=
  match url with
  | PyStr s => inr s
  | _ =>
    inl (TypeError ("Response url must be str, got " +:+
                    __name__ (type_of url) +:+ ":"))
  end.

(** [Response.__init__(url, status, body=...)] for the instance allocated
    at identity [self].  [_set_body] runs before [_set_url], as in the
    source.  The headers, request and flags attributes are never read by
    the code embedded here and are left out; [status] is taken already
    converted by [int(status)]. *)
Definition __init__ (self : ident) (url : PyValue) (status : Z)
    (body : PyValue) : Exception + Response :=
  match _set_body body with
  | inl e => inl e
  | inr b =>
    match _set_url url with
    | inl e => inl e
    | inr u => inr (mkResponse self status u b)
    end
  end.

End Http.

(* ===================================================================== *)
(** ** scrapy/core/downloader/middleware.py: the in-flight size tracker   *)
(* ===================================================================== *)

Module Tracker.

(** The part of a [DownloaderMiddlewareManager] that accounts for response
    sizes.  [_tracked_responses] is the [WeakSet]: membership is by
    identity, and the set does not keep its members alive.  [_finalizers]
    holds the callbacks this manager registered with [weakref.finalize]:
    for a response identity, the [size] bound in
    [partial(self._discount_response_size, size)]. *)
Record t := mk {
  response_active_size : Z;
  _tracked_responses : gmap ident Response;
  _finalizers : list (ident * Z);
}.

(** The state [__init__] leaves. *)
Definition init : t := mk 0 ∅ [].

(** [response in self._tracked_responses] *)
Definition tracked (response : Response) (self : t) : bool :=
  bool_decide (is_Some (_tracked_responses self !! response_id response)).

(** [_discount_response_size(size)] *)
Definition _discount_response_size (size : Z) (self : t) : t :=
  mk (response_active_size self - size)
     (_tracked_responses self)
     (_finalizers self).

(** [_count_response_size(response)] (the debug logging is left out) *)
Definition _count_response_size (response : Response) (self : t) : t :=
  if tracked response self then self
  else
    let size := Z.of_nat (length (body response)) in
    mk (response_active_size self + size)
       (<[response_id response := response]> (_tracked_responses self))
       (_finalizers self ++ [(response_id response, size)]).

(** The object at identity [i] becomes unreachable: the weak set drops it,
    and every finalizer registered for it runs once, in registration
    order, and is discarded. *)
Definition finalize_object (i : ident) (self : t) : t :=
  let mine := filter (λ cb, cb.1 = i) (_finalizers self) in
  let rest := filter (λ cb, cb.1 ≠ i) (_finalizers self) in
  let dropped :=
    mk (response_active_size self)
       (delete i (_tracked_responses self))
       rest in
  foldl (λ s cb, _discount_response_size cb.2 s) dropped mine.

(** The sum of [len(r.body)] over the tracked responses. *)
Definition add_len (_ : ident) (r : Response) (acc : Z) : Z :=
  Z.of_nat (length (body r)) + acc.

Definition tracked_bytes (self : t) : Z :=
  map_fold add_len 0 (_tracked_responses self).

(** The bytes the finalizers registered for identity [i] will discount. *)
Definition registered (i : ident) (finalizers : list (ident * Z)) : Z :=
  foldr (λ cb acc, cb.2 + acc) 0 (filter (λ cb, cb.1 = i) finalizers).

(** The counter agrees with the tracking set. *)
Definition consistent (self : t) : Prop :=
  response_active_size self = tracked_bytes self.

(** What a reachable tracker satisfies: the counter equation, and each
    identity has finalizers for exactly the bytes it was counted with. *)
Definition well_formed (self : t) : Prop :=
  consistent self ∧
  ∀ i, registered i (_finalizers self) =
       match _tracked_responses self !! i with
       | Some r => Z.of_nat (length (body r))
       | None => 0
       end.

(** The operations that reach the tracker. *)
Inductive op :=
| Track (response : Response)
| Release (i : ident).

Definition step (self : t) (o : op) : t :=
  match o with
  | Track r => _count_response_size r self
  | Release i => finalize_object i self
  end.

Definition run (ops : list op) (self : t) : t := foldl step self ops.

End Tracker.

(* ===================================================================== *)
(** ** scrapy/core/downloader/middleware.py: registry and executor        *)
(* ===================================================================== *)

(** A [twisted.python.failure.Failure]: [failure.value] is the exception. *)
Record Failure := mkFailure { value : Exception }.

(** What a fired [Deferred] holds: a result for the next callback, or a
    Failure for the next errback. *)
Inductive Deferred :=
| Succeeded (result : PyValue)
| Failed (failure : Failure).

Definition deferred_of (out : Outcome) : Deferred :=
  match out with
  | Return v => Succeeded v
  | Raise e => Failed (mkFailure e)
  end.

(** The calls a run makes to its collaborators, each with what it was given
    and what came back.  The manager keeps no such log; it is recorded here
    so that "is invoked" and "is never invoked" can be stated. *)
Inductive Event :=
| EvProcessRequest (method : string) (request : Request) (out : Outcome)
| EvDownload (request : Request) (out : Outcome)
| EvProcessResponse (method : string) (request : Request)
    (response : PyValue) (out : Outcome)
| EvProcessException (method : string) (request : Request)
    (exception : Exception) (out : Outcome).

Definition is_request_event (e : Event) : bool :=
  match e with EvProcessRequest _ _ _ => true | _ => false end.
Definition is_download_event (e : Event) : bool :=
  match e with EvDownload _ _ => true | _ => false end.
Definition is_response_event (e : Event) : bool :=
  match e with EvProcessResponse _ _ _ _ => true | _ => false end.
Definition is_exception_event (e : Event) : bool :=
  match e with EvProcessException _ _ _ _ => true | _ => false end.

(** The outcome an event recorded. *)
Definition event_outcome (e : Event) : Outcome :=
  match e with
  | EvProcessRequest _ _ out => out
  | EvDownload _ out => out
  | EvProcessResponse _ _ _ out => out
  | EvProcessException _ _ _ out => out
  end.

Section Manager.

(** Everything outside the manager that a middleware or the download
    function may read or change (their own attributes, the spider, the
    network).  The manager never looks at it. *)
Variable World : Type.

(** What [bool()] gives for the Responses and Requests of the run. *)
Variable truth : Truthiness.

(** A bound method, or any callable: its [__qualname__] and what a call
    with arguments [A] does.  The [spider] argument is the same in every
    call of a run and is part of the closure. *)
Record Method (A : Type) := mkMethod {
  __qualname__ : string;
  call : A → World → Outcome * World;
}.
Arguments __qualname__ {A}.
Arguments call {A}.

(** A middleware object: for each of the three attributes,
    [hasattr(mw, name)] and the bound method. *)
Record Middleware := mkMiddleware {
  mw_process_request : option (Method Request);
  mw_process_response : option (Method (Request * PyValue));
  mw_process_exception : option (Method (Request * Exception));
}.

(** [self.methods], a [defaultdict(deque)]: the deques at the three keys
    the manager uses. *)
Record Methods := mkMethods {
  methods_process_request : list (Method Request);
  methods_process_response : list (Method (Request * PyValue));
  methods_process_exception : list (Method (Request * Exception));
}.

Definition no_methods : Methods := mkMethods [] [] [].

(** [deque.append] and [deque.appendleft] *)
Definition append {A} (d : list A) (x : A) : list A := d ++ [x].
Definition appendleft {A} (d : list A) (x : A) : list A := x :: d.

(** [_add_middleware(mw)] *)
Definition _add_middleware (self : Methods) (mw : Middleware) : Methods :=
  let self :=
    match mw_process_request mw with
    | Some m => mkMethods (append (methods_process_request self) m)
                          (methods_process_response self)
                          (methods_process_exception self)
    | None => self
    end in
  let self :=
    match mw_process_response mw with
    | Some m => mkMethods (methods_process_request self)
                          (appendleft (methods_process_response self) m)
                          (methods_process_exception self)
    | None => self
    end in
  match mw_process_exception mw with
  | Some m => mkMethods (methods_process_request self)
                        (methods_process_response self)
                        (appendleft (methods_process_exception self) m)
  | None => self
  end.

(** Modelled from the spec: the constructor of the base class
    [MiddlewareManager] (scrapy/middleware.py) is not among the sources.
    The registry is "built once from a list of middleware objects":
    [_add_middleware] is called on each, first to last. *)
Definition add_middlewares (self : Methods) (mws : list Middleware)
    : Methods :=
  foldl _add_middleware self mws.

(** *** The run monad: tracker and world are threaded, calls are logged

    The tracker of the state changes by the calls of
    [_count_response_size] that the run makes.  The finalization of a
    Response, by which [_tracked_responses] drops it and
    [_discount_response_size] runs, happens when nothing refers to the
    object any more, and that depends on who else holds it: it is the
    step [Tracker.finalize_object] and no part of a run.  What is stated
    of the tracker after a call is stated of a Response the run still
    holds, or as an upper bound. *)

Record St := mkSt {
  tracker : Tracker.t;
  world : World;
}.

Definition Run (A : Type) : Type := St → A * St * list Event.

Definition run_ret {A} (a : A) : Run A := λ st, (a, st, []).

Definition run_bind {A B} (k : A → Run B) (m : Run A) : Run B :=
  λ st,
    let '(a, st1, log1) := m st in
    let '(b, st2, log2) := k a st1 in
    (b, st2, log1 ++ log2).

#[local] Instance Run_ret : MRet Run := @run_ret.
#[local] Instance Run_bind : MBind Run := @run_bind.

(** Call a collaborator and await what it gives. *)
Definition invoke (ev : Outcome → Event) (f : World → Outcome * World)
    : Run Outcome :=
  λ st,
    let '(out, w) := f (world st) in
    (out, mkSt (tracker st) w, [ev out]).

(** [self._count_response_size(result)], for a [result] that is a
    Response (every call site is guarded by [isinstance]). *)
Definition _count_response_size (result : PyValue) : Run () :=
  λ st,
    match result with
    | PyResponse r =>
        ((), mkSt (Tracker._count_response_size r (tracker st)) (world st), [])
    | _ => ((), st, [])
    end.

Definition raise (e : Exception) : Run Deferred :=
  mret (Failed (mkFailure e)).

(** *** [download] and its three inner functions

    [methods], [download_func] and [request] are the variables the inner
    functions close over. *)

Section Download.

Variable methods : Methods.
Variable download_func : Request → World → Outcome * World.

(** [process_request(request)]: the loop over
    [self.methods["process_request"]], then the download. *)
Fixpoint process_request_from (todo : list (Method Request))
    (request : Request) : Run Deferred :=
  match todo with
  | method :: todo =>
      out ← invoke (EvProcessRequest (__qualname__ method) request)
                   (call method request);
      match out with
      | Raise e => raise e
      | Return result =>
          if negb (is_None result)
             && negb (isinstance_Response_or_Request result) then
            raise (_InvalidOutput
              ("Middleware " +:+ __qualname__ method +:+
               " must return None, Response or " +:+
               "Request, got " +:+ __name__ (type_of result)))
          else
            _ ← (if isinstance_Response result
                 then _count_response_size result else mret ());
            if truthy truth result then mret (Succeeded result)
            else process_request_from todo request
      end
  | [] =>
      out ← invoke (EvDownload request) (download_func request);
      mret (deferred_of out)
  end.

Definition process_request (request : Request) : Run Deferred :=
  process_request_from (methods_process_request methods) request.

(** The loop of [process_response], with [result] its loop variable. *)
Fixpoint process_response_from (todo : list (Method (Request * PyValue)))
    (request : Request) (result : PyValue) : Run Deferred :=
  match todo with
  | method :: todo =>
      out ← invoke (EvProcessResponse (__qualname__ method) request result)
                   (call method (request, result));
      match out with
      | Raise e => raise e
      | Return result =>
          if negb (isinstance_Response_or_Request result) then
            raise (_InvalidOutput
              ("Middleware " +:+ __qualname__ method +:+
               " must return Response or Request, " +:+
               "got " +:+ type_repr (type_of result)))
          else if isinstance_Request result then mret (Succeeded result)
          else
            _ ← _count_response_size result;
            process_response_from todo request result
      end
  | [] => mret (Succeeded result)
  end.

(** [process_response(response)]; [request] is the one [download] was
    called with. *)
Definition process_response (request : Request) (response : PyValue)
    : Run Deferred :=
  let result := response in
  if is_None result then
    raise (TypeError "Received None in process_response")
  else if isinstance_Request result then mret (Succeeded result)
  else process_response_from (methods_process_response methods)
                             request result.

(** The loop of [process_exception]; when it runs out, [failure] is
    returned. *)
Fixpoint process_exception_from
    (todo : list (Method (Request * Exception)))
    (request : Request) (failure : Failure) : Run Deferred :=
  match todo with
  | method :: todo =>
      let exception := value failure in
      out ← invoke (EvProcessException (__qualname__ method) request
                                       exception)
                   (call method (request, exception));
      match out with
      | Raise e => raise e
      | Return result =>
          if negb (is_None result)
             && negb (isinstance_Response_or_Request result) then
            raise (_InvalidOutput
              ("Middleware " +:+ __qualname__ method +:+
               " must return None, Response or " +:+
               "Request, got " +:+ type_repr (type_of result)))
          else
            _ ← (if isinstance_Response result
                 then _count_response_size result else mret ());
            if truthy truth result then mret (Succeeded result)
            else process_exception_from todo request failure
      end
  | [] => mret (Failed failure)
  end.

Definition process_exception (request : Request) (failure : Failure)
    : Run Deferred :=
  process_exception_from (methods_process_exception methods)
                         request failure.

(** [Deferred.addErrback] and [Deferred.addCallback], on a Deferred that
    has fired: the function runs on the matching kind of result and what
    it gives is the Deferred's new result. *)
Definition addErrback (errback : Failure → Run Deferred) (d : Deferred)
    : Run Deferred :=
  match d with
  | Failed failure => errback failure
  | Succeeded _ => mret d
  end.

Definition addCallback (callback : PyValue → Run Deferred) (d : Deferred)
    : Run Deferred :=
  match d with
  | Succeeded result => callback result
  | Failed _ => mret d
  end.

(** [download(download_func, request, spider)].  [mustbe_deferred] turns
    what [process_request] returns or raises into a Deferred. *)
Definition download (request : Request) : Run Deferred :=
  deferred ← process_request request;
  deferred ← addErrback (process_exception request) deferred;
  addCallback (process_response request) deferred.

End Download.

End Manager.

Arguments __qualname__ {World A}.
Arguments call {World A}.
Arguments mkMethod {World A}.
Arguments mkMiddleware {World}.
Arguments mw_process_request {World}.
Arguments mw_process_response {World}.
Arguments mw_process_exception {World}.
Arguments mkMethods {World}.
Arguments methods_process_request {World}.
Arguments methods_process_response {World}.
Arguments methods_process_exception {World}.
Arguments no_methods {World}.
Arguments _add_middleware {World}.
Arguments add_middlewares {World}.
Arguments mkSt {World}.
Arguments tracker {World}.
Arguments world {World}.
Arguments run_ret {World A}.
Arguments run_bind {World A B}.
Arguments invoke {World}.
Arguments _count_response_size {World}.
Arguments raise {World}.
Arguments process_request_from {World}.
Arguments process_request {World}.
Arguments process_response_from {World}.
Arguments process_response {World}.
Arguments process_exception_from {World}.
Arguments process_exception {World}.
Arguments addErrback {World}.
Arguments addCallback {World}.
Arguments download {World}.

(* ===================================================================== *)
(** ** scrapy/extensions/feedexport.py: FeedExporter.close_spider          *)
(* ===================================================================== *)

Module FeedExport.

(** [class _FeedSlot]: the feed parameters and the flags.  The file, the
    exporter and the storage of a slot are collaborators; calls to them
    are logged under the slot's position in [self.slots]. *)
Record _FeedSlot := mkSlot {
  uri : string;
  format : string;
  store_empty : bool;
  itemcount : nat;
  _exporting : bool;
}.

Inductive Call :=
| SlotFinishExporting (i : nat)      (* slot.finish_exporting() *)
| ExporterFinishExporting (i : nat)  (* slot.exporter.finish_exporting() *)
| StorageStore (i : nat).            (* slot.storage.store(slot.file) *)

(** The slot a call belongs to. *)
Definition call_slot (c : Call) : nat :=
  match c with
  | SlotFinishExporting i | ExporterFinishExporting i | StorageStore i => i
  end.

(** [_FeedSlot.finish_exporting], for the slot at position [i]. *)
Definition finish_exporting (i : nat) (self : _FeedSlot)
    : _FeedSlot * list Call :=
  if _exporting self then
    (mkSlot (uri self) (format self) (store_empty self) (itemcount self)
            false,
     [SlotFinishExporting i; ExporterFinishExporting i])
  else (self, [SlotFinishExporting i]).

(** [not slot.itemcount and not slot.store_empty] *)
Definition empty_unstored (slot : _FeedSlot) : bool :=
  Nat.eqb (itemcount slot) 0 && negb (store_empty slot).

(** What [close_spider] returns: the Deferred of one store call, a
    [DeferredList] of the store calls collected, or [None]. *)
Inductive Returned :=
| StoreDeferred (i : nat)
| DeferredList (deferred_list : list nat)
| ReturnedNone.

(** The loop of [close_spider] from position [i] on, [slots] being
    [self.slots[i:]].  It gives the returned value, the slots as the loop
    leaves them, and the calls made.  The logging callbacks added to each
    Deferred are left out. *)
Fixpoint close_spider_from (i : nat) (slots : list _FeedSlot)
    (deferred_list : list nat)
    : Returned * list _FeedSlot * list Call :=
  match slots with
  | slot :: rest =>
      if empty_unstored slot then
        (StoreDeferred i, slot :: rest, [StorageStore i])
      else
        let '(slot', calls) := finish_exporting i slot in
        let '(ret, rest', calls') :=
          close_spider_from (S i) rest (deferred_list ++ [i]) in
        (ret, slot' :: rest', calls ++ StorageStore i :: calls')
  | [] =>
      (match deferred_list with
       | [] => ReturnedNone
       | _ => DeferredList deferred_list
       end, [], [])
  end.

(** [FeedExporter.close_spider(spider)] on [self.slots]. *)
Definition close_spider (slots : list _FeedSlot)
    : Returned * list _FeedSlot * list Call :=
  close_spider_from 0 slots [].

End FeedExport.

(* ===================================================================== *)
(** ** Concrete runs                                                      *)
(* ===================================================================== *)

Module Examples.

Definition request0 : Request := mkRequest 1%positive "http://example.com/".
Definition request1 : Request := mkRequest 5%positive "http://example.com/next".

(** A response with the three-byte body [b"abc"]. *)
Definition R : Response :=
  mkResponse 2%positive 200 "http://example.com/"
             [Byte.x61; Byte.x62; Byte.x63].

(** Responses and Requests that are all true, as the instances of the
    classes Response and Request themselves. *)
Definition all_true : Truthiness := mkTruthiness (λ _, true) (λ _, true).


(** A fresh manager, before any run. *)
Definition st0 : St () := mkSt Tracker.init ().

(** A callable that does the same whatever it is given. *)
Definition always {A} (name : string) (out : Outcome) : Method () A :=
  mkMethod name (λ _ w, (out, w)).

(** A download function that yields [R], and one that fails. *)
Definition download_R : Request → () → Outcome * () :=
  λ _ w, (Return (PyResponse R), w).
Definition timeout : Exception := mkException "TimeoutError" "timed out".
Definition download_timeout : Request → () → Outcome * () :=
  λ _ w, (Raise timeout, w).


(** One middleware whose [process_response] returns a new Request. *)
Definition mws_redirect : list (Middleware ()) :=
  [mkMiddleware None
     (Some (always "Redirect.process_response"
                   (Return (PyRequest request1)))) None].

(** One middleware whose [process_exception] returns [None]. *)
Definition mws_passive : list (Middleware ()) :=
  [mkMiddleware None None
     (Some (always "Passive.process_exception" (Return PyNone)))].

(** One middleware whose [process_request] returns [42]. *)
Definition mws_broken : list (Middleware ()) :=
  [mkMiddleware (Some (always "Broken.process_request"
                              (Return (PyInt 42)))) None None].

(** The same, followed by a middleware whose [process_exception] answers
    any exception with [R]. *)
Definition mws_broken_recovered : list (Middleware ()) :=
  mws_broken ++
  [mkMiddleware None None
     (Some (always "Fallback.process_exception"
                   (Return (PyResponse R))))].

(** One middleware whose [process_request] returns [None]. *)
Definition mws_idle : list (Middleware ()) :=
  [mkMiddleware (Some (always "Idle.process_request" (Return PyNone)))
                None None].

(** One middleware whose [process_exception] returns [42]. *)
Definition mws_broken_exception : list (Middleware ()) :=
  [mkMiddleware None None
     (Some (always "Broken.process_exception" (Return (PyInt 42))))].

(** One middleware whose [process_response] returns [None]. *)
Definition mws_none_response : list (Middleware ()) :=
  [mkMiddleware None
     (Some (always "Silent.process_response" (Return PyNone))) None].

(** [download] on the manager built from [mws], for [request0], on a fresh
    manager. *)
Definition run (mws : list (Middleware ()))
    (download_func : Request → () → Outcome * ())
    : Deferred * St () * list Event :=
  download all_true (add_middlewares no_methods mws) download_func
           request0 st0.

(** Three feed slots: the second has no items and [store_empty] false. *)
Definition slots : list FeedExport._FeedSlot :=
  [FeedExport.mkSlot "a.json" "json" false 2 true;
   FeedExport.mkSlot "b.csv" "csv" false 0 false;
   FeedExport.mkSlot "c.xml" "xml" false 1 true].

End Examples.

(* ===================================================================== *)
(** ** Further code of the same files                                     *)
(* ===================================================================== *)

(** *** scrapy/http/response/__init__.py: [replace] and [copy] *)

Module ResponseMethods.

(** The keyword arguments of [replace] that reach the attributes modelled
    here.  [cls] is left at [self.__class__] and [status], when given, is
    an int. *)
Record Kwargs := mkKwargs {
  kw_url : option PyValue;
  kw_status : option Z;
  kw_body : option PyValue;
}.

Definition no_kwargs : Kwargs := mkKwargs None None None.

(** [Response.replace] with keyword arguments: every attribute not given
    is taken from [self] ([kwargs.setdefault(x, getattr(self, x))]) and
    the class is called; [new] is the identity of the instance it
    allocates. *)
Definition replace (self : Response) (new : ident) (kwargs : Kwargs)
    : Exception + Response :=
  let url := default (PyStr (_url self)) (kw_url kwargs) in
  let status := default (status self) (kw_status kwargs) in
  let body := default (PyBytes (body self)) (kw_body kwargs) in
  Http.__init__ new url status body.

(** [Response.copy()] *)
Definition copy (self : Response) (new : ident) : Exception + Response :=
  replace self new no_kwargs.

End ResponseMethods.

(** *** Counting several responses, and the responses a run counts *)

(** [_count_response_size] on each of [rs], first to last. *)
Definition count_all (rs : list Response) (self : Tracker.t) : Tracker.t :=
  foldl (λ t r, Tracker._count_response_size r t) self rs.

(** The tracker after
    [if isinstance(result, Response): self._count_response_size(result)]. *)
Definition counted (result : PyValue) (self : Tracker.t) : Tracker.t :=
  match result with
  | PyResponse r => Tracker._count_response_size r self
  | _ => self
  end.

(** [sum(len(r.body) for r in rs)] *)
Definition total_len (rs : list Response) : Z :=
  foldr (λ r acc, Z.of_nat (length (body r)) + acc) 0 rs.

(** The Responses that stages returned, in the order of the log.  What the
    download function returned is not among them. *)
Definition stage_responses (log : list Event) : list Response :=
  omap (λ e,
          match e with
          | EvDownload _ _ => None
          | _ => match event_outcome e with
                 | Return (PyResponse r) => Some r
                 | _ => None
                 end
          end) log.

(** How many events of a kind a log holds. *)
Definition count_kind (kind : Event → bool) (log : list Event) : nat :=
  length (List.filter kind log).

(** *** scrapy/extensions/feedexport.py: slots while the spider runs *)

Module FeedExportRun.

Import FeedExport.

(** The calls made to the collaborators of the slot at position [i] while
    the spider is open. *)
Inductive Call :=
| OpenFeed (i : nat)      (* _get_storage, storage.open, _get_exporter *)
| ExporterStartExporting (i : nat)         (* exporter.start_exporting() *)
| ExporterExportItem (i : nat) (item : PyValue).
                                           (* exporter.export_item(item) *)

Definition call_slot (c : Call) : nat :=
  match c with
  | OpenFeed i | ExporterStartExporting i | ExporterExportItem i _ => i
  end.

(** [_FeedSlot.__init__]: the flags start at [0] and [False]. *)
Definition new_slot (uri format : string) (store_empty : bool) : _FeedSlot :=
  mkSlot uri format store_empty 0 false.

(** [_FeedSlot.start_exporting], for the slot at position [i]. *)
Definition start_exporting (i : nat) (self : _FeedSlot)
    : _FeedSlot * list Call :=
  if negb (_exporting self) then
    (mkSlot (uri self) (format self) (store_empty self) (itemcount self)
            true,
     [ExporterStartExporting i])
  else (self, []).

Section Collaborators.

(** Whether [slot.exporter.export_item(item)] raises, for the exporter of
    the slot at a position. *)
Variable export_item : nat → PyValue → option Exception.

(** The loop of [item_scraped] from position [i] on: the exception that
    ended it, if any, the slots as it leaves them, and the calls made. *)
Fixpoint item_scraped_from (i : nat) (item : PyValue)
    (slots : list _FeedSlot)
    : option Exception * list _FeedSlot * list Call :=
  match slots with
  | slot :: rest =>
      let '(slot, calls) := start_exporting i slot in
      let calls := calls ++ [ExporterExportItem i item] in
      match export_item i item with
      | Some e => (Some e, slot :: rest, calls)
      | None =>
          let slot := mkSlot (uri slot) (format slot) (store_empty slot)
                             (S (itemcount slot)) (_exporting slot) in
          let '(raised, rest, calls') :=
            item_scraped_from (S i) item rest in
          (raised, slot :: rest, calls ++ calls')
      end
  | [] => (None, [], [])
  end.

(** [FeedExporter.item_scraped(item, spider)] on [self.slots]. *)
Definition item_scraped (item : PyValue) (slots : list _FeedSlot)
    : option Exception * list _FeedSlot * list Call :=
  item_scraped_from 0 item slots.

(** Items scraped one after the other; the first exception ends it. *)
Fixpoint items_scraped (items : list PyValue) (slots : list _FeedSlot)
    : option Exception * list _FeedSlot * list Call :=
  match items with
  | item :: items =>
      let '(raised, slots, calls) := item_scraped item slots in
      match raised with
      | Some e => (Some e, slots, calls)
      | None =>
          let '(raised, slots, calls') := items_scraped items slots in
          (raised, slots, calls ++ calls')
      end
  | [] => (None, slots, [])
  end.

End Collaborators.

(** One entry of [self.feeds], after [uri % self._get_uri_params(...)]:
    the uri and the options [open_spider] reads itself. *)
Record Feed := mkFeed {
  feed_uri : string;
  feed_format : string;
  feed_store_empty : bool;
}.

Section Opening.

(** Whether getting the storage, opening it or getting the exporter raises
    for the feed at a position. *)
Variable open_feed : nat → Feed → option Exception.

(** The loop of [open_spider]: [slots] is [self.slots] so far. *)
Fixpoint open_spider_from (feeds : list Feed) (slots : list _FeedSlot)
    : option Exception * list _FeedSlot * list Call :=
  match feeds with
  | feed :: feeds =>
      let i := length slots in
      match open_feed i feed with
      | Some e => (Some e, slots, [OpenFeed i])
      | None =>
          let slot := new_slot (feed_uri feed) (feed_format feed)
                               (feed_store_empty feed) in
          let '(slot, calls) :=
            if store_empty slot then start_exporting i slot
            else (slot, []) in
          let '(raised, slots, calls') :=
            open_spider_from feeds (slots ++ [slot]) in
          (raised, slots, OpenFeed i :: calls ++ calls')
      end
  | [] => (None, slots, [])
  end.

(** [FeedExporter.open_spider(spider)], [self.slots] being empty as
    [__init__] leaves it. *)
Definition open_spider (feeds : list Feed)
    : option Exception * list _FeedSlot * list Call :=
  open_spider_from feeds [].

End Opening.

End FeedExportRun.

(** *** scrapy/dupefilters.py *)

Module DupeFilter.

(** [class RFPDupeFilter].  [file] is [None] or the text written to the
    open file so far; [fingerprints] is the set. *)
Record t := mk {
  file : option string;
  fingerprints : gset string;
  logdupes : bool;
  debug : bool;
}.

(** [RFPDupeFilter(path=None, debug)] *)
Definition init (debug : bool) : t := mk None ∅ true debug.

(** The line feed, ['\n']. *)
Definition LF : string := String (Ascii.ascii_of_nat 10) EmptyString.

(** What [request_seen] returns: [True], or nothing. *)
Inductive Seen := SeenTrue | SeenNone.

(** [bool(...)] of it, what the caller tests. *)
Definition seen_truthy (s : Seen) : bool :=
  match s with SeenTrue => true | SeenNone => false end.

Section Fingerprinter.

(** [self.fingerprinter.fingerprint] *)
Variable fingerprint : Request → string.

(** [request_fingerprint(request)] *)
Definition request_fingerprint (request : Request) : string :=
  fingerprint request.

(** [request_seen(request)] *)
Definition request_seen (request : Request) (self : t) : Seen * t :=
  let fp := request_fingerprint request in
  if bool_decide (fp ∈ fingerprints self) then (SeenTrue, self)
  else
    let fingerprints := {[fp]} ∪ fingerprints self in
    match file self with
    | Some text =>
        (SeenNone,
         mk (Some (text +:+ (fp +:+ LF))) fingerprints
            (logdupes self) (debug self))
    | None =>
        (SeenNone, mk None fingerprints (logdupes self) (debug self))
    end.

(** [request_seen] on each request in turn: what each call returned. *)
Fixpoint requests_seen (requests : list Request) (self : t)
    : list Seen * t :=
  match requests with
  | request :: requests =>
      let '(s, self) := request_seen request self in
      let '(ss, self) := requests_seen requests self in
      (s :: ss, self)
  | [] => ([], self)
  end.

End Fingerprinter.

(** The calls [log] makes. *)
Inductive Effect :=
| LoggerDebug (msg : string) (request : Request)
| StatsIncValue (key : string).

Definition is_debug (e : Effect) : bool :=
  match e with LoggerDebug _ _ => true | _ => false end.

(** [log(request, spider)] *)
Definition log (request : Request) (self : t) : t * list Effect :=
  let '(self, logged) :=
    if debug self then
      (self,
       [LoggerDebug
          "Filtered duplicate request: %(request)s (referer: %(referer)s)"
          request])
    else if logdupes self then
      (mk (file self) (fingerprints self) false (debug self),
       [LoggerDebug
          ("Filtered duplicate request: %(request)s" +:+
           " - no more duplicates will be shown" +:+
           " (see DUPEFILTER_DEBUG to show all duplicates)")
          request])
    else (self, []) in
  (self, logged ++ [StatsIncValue "dupefilter/filtered"]).

(** [log] on each request in turn. *)
Fixpoint log_all (requests : list Request) (self : t) : t * list Effect :=
  match requests with
  | request :: requests =>
      let '(self, effects) := log request self in
      let '(self, effects') := log_all requests self in
      (self, effects ++ effects')
  | [] => (self, [])
  end.

End DupeFilter.

(** *** scrapy/downloadermiddlewares/offsite.py *)

Module Offsite.

(** [class OffsiteMiddleware]: the attribute [spider_opened] resets and
    [process_request] grows. *)
Record t := mk {
  domains_seen : gset string;
}.

Inductive Effect :=
| LoggerDebug (domain : string) (request : Request)
| StatsIncValue (key : string).

Definition IgnoreRequest : Exception :=
  mkException "IgnoreRequest" EmptyString.

Section Middleware.

(** [request.dont_filter] and [urlparse_cached(request).hostname], of the
    Request class; [host_regex] is [self.host_regex.search], the compiled
    pattern [spider_opened] sets. *)
Variable dont_filter : Request → bool.
Variable hostname : Request → option string.
Variable host_regex : string → bool.

(** [should_follow(request, spider)] *)
Definition should_follow (request : Request) : bool :=
  let host := default EmptyString (hostname request) in
  host_regex host.

(** [request.dont_filter or self.should_follow(request, spider)] *)
Definition allowed (request : Request) : bool :=
  dont_filter request || should_follow request.

(** [if domain and domain not in self.domains_seen] *)
Definition new_domain (domain : option string) (self : t) : option string :=
  match domain with
  | Some d =>
      if negb (Nat.eqb (String.length d) 0)
         && negb (bool_decide (d ∈ domains_seen self))
      then Some d else None
  | None => None
  end.

(** [process_request(request, spider)] *)
Definition process_request (request : Request) (self : t)
    : Outcome * t * list Effect :=
  if allowed request then
    (Return PyNone, self, [])
  else
    let domain := hostname request in
    let '(self, effects) :=
      match new_domain domain self with
      | Some d =>
          (mk ({[d]} ∪ domains_seen self),
           [LoggerDebug d request; StatsIncValue "offsite/domains"])
      | None => (self, [])
      end in
    (Raise IgnoreRequest, self,
     effects ++ [StatsIncValue "offsite/filtered"]).

(** [process_request] on each request in turn. *)
Fixpoint process_requests (requests : list Request) (self : t)
    : list Outcome * t * list Effect :=
  match requests with
  | request :: requests =>
      let '(out, self, effects) := process_request request self in
      let '(outs, self, effects') := process_requests requests self in
      (out :: outs, self, effects ++ effects')
  | [] => ([], self, [])
  end.

(** The middleware as the manager sees it: the bound method
    [process_request], acting on the middleware's own state and on the
    calls it has made so far. *)
Definition method : Method (t * list Effect) Request :=
  mkMethod "OffsiteMiddleware.process_request"
    (λ request w,
       let '(out, self, effects) := process_request request w.1 in
       (out, (self, w.2 ++ effects))).

End Middleware.

(** [spider_opened(spider)] *)
Definition spider_opened (self : t) : t := mk ∅.

Definition is_stat (key : string) (e : Effect) : bool :=
  match e with
  | StatsIncValue k => bool_decide (k = key)
  | _ => false
  end.

End Offsite.

(** *** Shapes used to state what the loops above do *)

(** The calls of a loop, given the calls of the iteration at each
    position, from position [i] on. *)
Fixpoint per_position {A C} (f : nat → A → list C) (i : nat) (l : list A)
    : list C :=
  match l with
  | x :: l => f i x ++ per_position f (S i) l
  | [] => []
  end.

Module FeedSlots.

Import FeedExport.

(** A slot after [finish_exporting]. *)
Definition finished (s : _FeedSlot) : _FeedSlot :=
  mkSlot (uri s) (format s) (store_empty s) (itemcount s) false.

(** A slot after [n] more items, [n] not zero. *)
Definition with_items (n : nat) (s : _FeedSlot) : _FeedSlot :=
  mkSlot (uri s) (format s) (store_empty s) (n + itemcount s) true.

(** A slot in which [start_exporting] was called. *)
Definition started (s : _FeedSlot) : _FeedSlot :=
  mkSlot (uri s) (format s) (store_empty s) (itemcount s) true.

(** The slot [open_spider] makes of a feed. *)
Definition opened (f : FeedExportRun.Feed) : _FeedSlot :=
  mkSlot (FeedExportRun.feed_uri f) (FeedExportRun.feed_format f)
         (FeedExportRun.feed_store_empty f) 0
         (FeedExportRun.feed_store_empty f).

(** What [close_spider] gives when it reaches the end of the loop. *)
Definition all_stored (deferred_list : list nat) : Returned :=
  match deferred_list with
  | [] => ReturnedNone
  | _ => DeferredList deferred_list
  end.

(** The three calls that finish and store an exporting slot. *)
Definition finish_and_store (i : nat) : list Call :=
  [SlotFinishExporting i; ExporterFinishExporting i; StorageStore i].

End FeedSlots.

Module DupeLines.

Import DupeFilter.

(** The fingerprints of the requests for which [request_seen] returned
    nothing, in order. *)
Fixpoint unseen (fingerprint : Request → string)
    (requests : list Request) (seen : list Seen) : list string :=
  match requests, seen with
  | request :: requests, SeenNone :: seen =>
      fingerprint request :: unseen fingerprint requests seen
  | _ :: requests, SeenTrue :: seen => unseen fingerprint requests seen
  | _, _ => []
  end.

(** One line per fingerprint. *)
Definition lines (fps : list string) : string :=
  foldr (λ fp acc, (fp +:+ LF) +:+ acc) EmptyString fps.

Definition is_stats (e : Effect) : bool :=
  match e with StatsIncValue _ => true | _ => false end.

End DupeLines.

(* ===================================================================== *)
(** ** More concrete runs                                                 *)
(* ===================================================================== *)

Module MoreExamples.

Import Examples.

(** A second response, with the two-byte body [b"ok"]. *)
Definition R2 : Response :=
  mkResponse 3%positive 200 "http://example.com/" [Byte.x6f; Byte.x6b].

Definition download_none : Request → () → Outcome * () :=
  λ _ w, (Return PyNone, w).
Definition download_request1 : Request → () → Outcome * () :=
  λ _ w, (Return (PyRequest request1), w).

Definition ignore_request : Exception :=
  mkException "IgnoreRequest" EmptyString.

(** One middleware whose [process_request] returns a new Request. *)
Definition mws_bounce : list (Middleware ()) :=
  [mkMiddleware (Some (always "Bounce.process_request"
                              (Return (PyRequest request1)))) None None].

(** One middleware whose [process_request] raises. *)
Definition mws_drop : list (Middleware ()) :=
  [mkMiddleware (Some (always "Drop.process_request"
                              (Raise ignore_request))) None None].

(** One middleware whose [process_exception] returns [R]. *)
Definition mws_fallback : list (Middleware ()) :=
  [mkMiddleware None None
     (Some (always "Fallback.process_exception"
                   (Return (PyResponse R))))].

(** One middleware whose [process_exception] returns a new Request. *)
Definition mws_retry : list (Middleware ()) :=
  [mkMiddleware None None
     (Some (always "Retry.process_exception"
                   (Return (PyRequest request1))))].

(** Two middlewares with a [process_response]: the one registered last
    runs first. *)
Definition mws_chain : list (Middleware ()) :=
  [mkMiddleware None
     (Some (always "Outer.process_response" (Return (PyResponse R)))) None;
   mkMiddleware None
     (Some (always "Inner.process_response" (Return (PyResponse R2)))) None].

Definition download_event : Event :=
  EvDownload request0 (Return (PyResponse R)).
Definition inner_event : Event :=
  EvProcessResponse "Inner.process_response" request0 (PyResponse R)
                    (Return (PyResponse R2)).
Definition outer_event : Event :=
  EvProcessResponse "Outer.process_response" request0 (PyResponse R2)
                    (Return (PyResponse R)).

(** A tracker that has seen [R] come and [R2] come and go. *)
Definition ops : list Tracker.op :=
  [Tracker.Track R; Tracker.Track R2; Tracker.Release 3%positive].

(** Feed slots and exporters. *)
Definition slot_a := FeedExport.mkSlot "a.json" "json" false 2 true.
Definition slot_b := FeedExport.mkSlot "b.csv" "csv" false 0 false.
Definition slot_c := FeedExport.mkSlot "c.xml" "xml" false 1 true.

Definition item : PyValue := PyStr "item".
Definition export_ok : nat → PyValue → option Exception := λ _ _, None.
Definition export_error : Exception := mkException "ValueError" "bad item".
Definition export_fails_at_1 : nat → PyValue → option Exception :=
  λ k _, if Nat.eqb k 1 then Some export_error else None.

Definition feed_a := FeedExportRun.mkFeed "a.json" "json" true.
Definition feed_b := FeedExportRun.mkFeed "b.csv" "csv" false.
Definition feed_c := FeedExportRun.mkFeed "c.xml" "xml" false.
Definition open_ok : nat → FeedExportRun.Feed → option Exception :=
  λ _ _, None.

(** A duplicates filter that writes to a file, empty so far, and three
    requests of which the third repeats the first. *)
Definition dupefilter : DupeFilter.t :=
  DupeFilter.mk (Some EmptyString) ∅ true false.
Definition requests : list Request := [request0; request1; request0].

(** An offsite middleware that lets nothing through, alone in a manager. *)
Definition offsite_method : Method (Offsite.t * list Offsite.Effect) Request :=
  Offsite.method (λ _, false) (λ r, Some (request_url r)) (λ _, false).
Definition offsite_methods : Methods (Offsite.t * list Offsite.Effect) :=
  mkMethods [offsite_method] [] [].
Definition offsite_download
    : Request → Offsite.t * list Offsite.Effect →
      Outcome * (Offsite.t * list Offsite.Effect) :=
  λ _ w, (Return (PyResponse R), w).
Definition offsite_st0 : St (Offsite.t * list Offsite.Effect) :=
  mkSt Tracker.init (Offsite.spider_opened (Offsite.mk ∅), []).

End MoreExamples.

(* ===================================================================== *)
(** * Properties                                                          *)
(* ===================================================================== *)

(** ** Response construction *)

Section ResponseFacts.

Lemma _set_body_bytes b : Http._set_body (PyBytes b) = inr b.
Proof. reflexivity. Qed.

Lemma _set_body_inr v b :
  Http._set_body v = inr b →
  (v = PyNone ∧ b = []) ∨ v = PyBytes b.
Proof.
  destruct v; cbn; intros H; try discriminate;
    injection H as <-; auto.
Qed.

Lemma __init___body self url st v r :
  Http.__init__ self url st v = inr r →
  Http._set_body v = inr (body r).
Proof.
  unfold Http.__init__.
  destruct (Http._set_body v) as [e|b]; [discriminate|].
  destruct (Http._set_url url) as [e|u]; [discriminate|].
  intros [= <-]. reflexivity.
Qed.

End ResponseFacts.

(** ** The in-flight size tracker *)

Section TrackerFacts.

Import Tracker.

Implicit Types (self : t) (r : Response) (i : ident).

Lemma tracked_true r self :
  tracked r self = true ↔ is_Some (_tracked_responses self !! response_id r).
Proof. unfold tracked. apply bool_decide_eq_true. Qed.

Lemma tracked_false r self :
  tracked r self = false ↔ _tracked_responses self !! response_id r = None.
Proof.
  unfold tracked. rewrite bool_decide_eq_false.
  symmetry. apply eq_None_not_Some.
Qed.

Lemma count_tracked r self :
  tracked r self = true → _count_response_size r self = self.
Proof. intros H. unfold _count_response_size. by rewrite H. Qed.

Lemma tracked_after_count r self :
  tracked r (_count_response_size r self) = true.
Proof.
  unfold _count_response_size.
  destruct (tracked r self) eqn:E; [done|].
  apply tracked_true. cbn. rewrite lookup_insert_eq. eauto.
Qed.

Lemma count_size r self :
  response_active_size (_count_response_size r self) =
  response_active_size self +
  (if tracked r self then 0 else Z.of_nat (length (body r))).
Proof.
  unfold _count_response_size.
  destruct (tracked r self); cbn; lia.
Qed.

Lemma count_idempotent r self :
  _count_response_size r (_count_response_size r self) =
  _count_response_size r self.
Proof. apply count_tracked, tracked_after_count. Qed.

Lemma count_iter r self (n : nat) :
  Nat.iter n (_count_response_size r) (_count_response_size r self) =
  _count_response_size r self.
Proof.
  induction n as [|n IH]; [done|].
  change (Nat.iter (S n) ?f ?x) with (f (Nat.iter n f x)).
  rewrite IH. apply count_idempotent.
Qed.

(** *** The counter invariant *)

Lemma add_len_comm j1 j2 z1 z2 y :
  add_len j1 z1 (add_len j2 z2 y) = add_len j2 z2 (add_len j1 z1 y).
Proof. unfold add_len. lia. Qed.

Lemma tracked_bytes_insert (m : gmap ident Response) i r :
  m !! i = None →
  map_fold add_len 0 (<[i:=r]> m) =
  Z.of_nat (length (body r)) + map_fold add_len 0 m.
Proof.
  intros H. rewrite map_fold_insert_L; [done| |done].
  intros. apply add_len_comm.
Qed.

Lemma tracked_bytes_delete (m : gmap ident Response) i r :
  m !! i = Some r →
  map_fold add_len 0 m =
  Z.of_nat (length (body r)) + map_fold add_len 0 (delete i m).
Proof.
  intros H. rewrite (map_fold_delete_L add_len 0 i r m); [done| |done].
  intros. apply add_len_comm.
Qed.

Lemma registered_app i (l1 l2 : list (ident * Z)) :
  registered i (l1 ++ l2) = registered i l1 + registered i l2.
Proof.
  unfold registered. rewrite filter_app, foldr_app.
  induction (filter (λ cb, cb.1 = i) l1) as [|x l IH]; cbn; [done|].
  rewrite IH. lia.
Qed.

Lemma registered_dropped i j (l : list (ident * Z)) :
  registered j (filter (λ cb, cb.1 ≠ i) l) =
  if decide (j = i) then 0 else registered j l.
Proof.
  unfold registered.
  induction l as [|[k z] l IH]; [by case_decide|].
  rewrite (filter_cons (λ cb, cb.1 ≠ i)), (filter_cons (λ cb, cb.1 = j)).
  cbn [fst].
  destruct (decide (k ≠ i)) as [Hk|Hk].
  - rewrite (filter_cons (λ cb, cb.1 = j)). cbn [fst].
    destruct (decide (k = j)) as [->|Hkj]; cbn [foldr]; rewrite IH;
      repeat case_decide; congruence.
  - apply dec_stable in Hk as ->.
    destruct (decide (i = j)) as [->|Hij]; rewrite IH;
      repeat case_decide; congruence.
Qed.

Lemma discount_all (l : list (ident * Z)) self :
  foldl (λ s cb, _discount_response_size cb.2 s) self l =
  mk (response_active_size self - foldr (λ cb acc, cb.2 + acc) 0 l)
     (_tracked_responses self) (_finalizers self).
Proof.
  revert self. induction l as [|cb l IH]; intros self; cbn.
  - destruct self; cbn. f_equal. lia.
  - rewrite IH. cbn. f_equal. lia.
Qed.

Lemma finalize_object_eq i self :
  finalize_object i self =
  mk (response_active_size self - registered i (_finalizers self))
     (delete i (_tracked_responses self))
     (filter (λ cb, cb.1 ≠ i) (_finalizers self)).
Proof. unfold finalize_object. by rewrite discount_all. Qed.

Lemma well_formed_init : well_formed init.
Proof.
  split; [reflexivity|]. intros i. cbn. by rewrite lookup_empty.
Qed.

Lemma well_formed_count r self :
  well_formed self → well_formed (_count_response_size r self).
Proof.
  intros [Hc Hf]. unfold _count_response_size.
  destruct (tracked r self) eqn:E; [by split|].
  apply tracked_false in E.
  split.
  - unfold consistent, tracked_bytes in *. cbn.
    rewrite tracked_bytes_insert by done. lia.
  - intros i. cbn [_finalizers _tracked_responses].
    rewrite registered_app, Hf.
    unfold registered.
    rewrite (filter_cons (λ cb, cb.1 = i)), filter_nil. cbn [fst].
    destruct (decide (response_id r = i)) as [<-|Hne].
    + rewrite E, lookup_insert_eq. cbn. lia.
    + rewrite lookup_insert_ne by done. cbn. lia.
Qed.

Lemma well_formed_finalize i self :
  well_formed self → well_formed (finalize_object i self).
Proof.
  intros [Hc Hf]. rewrite finalize_object_eq.
  split.
  - unfold consistent, tracked_bytes in *. cbn.
    rewrite Hf, Hc.
    destruct (_tracked_responses self !! i) as [r|] eqn:E.
    + rewrite (tracked_bytes_delete _ i r) by done. lia.
    + rewrite delete_id by done. lia.
  - intros j. cbn [_finalizers _tracked_responses].
    rewrite registered_dropped.
    destruct (decide (j = i)) as [->|Hne].
    + by rewrite lookup_delete_eq.
    + rewrite lookup_delete_ne by done. apply Hf.
Qed.

Lemma well_formed_run ops self :
  well_formed self → well_formed (run ops self).
Proof.
  revert self. induction ops as [|o ops IH]; intros self H; [done|].
  cbn. apply IH. destruct o; cbn.
  - by apply well_formed_count.
  - by apply well_formed_finalize.
Qed.

(** C7: tracking is idempotent.  Tracking a response that is in the
    tracking set changes nothing; after the first call every further call
    is such a no-op, so any number of calls on one identity adds its body
    length to [response_active_size] once. *)
Theorem C7_track_idempotent r self (n : nat) :
  (tracked r self = true → _count_response_size r self = self) ∧
  _count_response_size r (_count_response_size r self) =
    _count_response_size r self ∧
  Nat.iter (S n) (_count_response_size r) self =
    _count_response_size r self ∧
  (tracked r self = false →
   response_active_size (Nat.iter (S n) (_count_response_size r) self) =
   response_active_size self + Z.of_nat (length (body r))).
Proof.
  assert (Hiter : Nat.iter (S n) (_count_response_size r) self =
                  _count_response_size r self).
  { rewrite Nat.iter_succ_r. apply count_iter. }
  split; [apply count_tracked|].
  split; [apply count_idempotent|].
  split; [exact Hiter|].
  intros H. rewrite Hiter, count_size, H. done.
Qed.

(** C8: in every state the tracker reaches from the one [__init__] leaves
    by track and release operations, [response_active_size] is the sum of
    the body lengths of the responses in the tracking set, and one more
    track or release keeps it so. *)
Theorem C8_counter_invariant (ops : list op) r i :
  let self := run ops init in
  consistent self ∧
  consistent (_count_response_size r self) ∧
  consistent (finalize_object i self).
Proof.
  intros self.
  assert (H : well_formed self) by apply well_formed_run, well_formed_init.
  split; [apply H|].
  split.
  - by apply well_formed_count.
  - by apply well_formed_finalize.
Qed.

End TrackerFacts.

(** ** Response bodies *)

Section BodyFacts.

Import Tracker.

(** C10: [Response(body=None)] has the empty bytes as body and adds nothing
    to the tracked size; a body that is neither [None] nor bytes raises
    TypeError; a bytes body is stored as given.  So a Response that was
    constructed has as body the bytes passed (or none), and tracking it for
    the first time adds their length. *)
Theorem C10_response_body self url st (v : PyValue) :
  Http._set_body PyNone = inr [] ∧
  (is_None v = false → isinstance_bytes v = false →
   ∃ msg, Http._set_body v = inl (TypeError msg) ∧
          Http.__init__ self url st v = inl (TypeError msg)) ∧
  (∀ b, v = PyBytes b → Http._set_body v = inr b) ∧
  (∀ r, Http.__init__ self url st v = inr r →
     ((v = PyNone ∧ body r = []) ∨ v = PyBytes (body r)) ∧
     (v = PyNone → ∀ t, response_active_size (_count_response_size r t) =
                        response_active_size t) ∧
     (∀ t, tracked r t = false →
           response_active_size (_count_response_size r t) =
           response_active_size t + Z.of_nat (length (body r)))).
Proof.
  split; [reflexivity|].
  split.
  { intros Hn Hb. unfold Http.__init__, Http._set_body.
    rewrite Hn, Hb. cbn. eauto. }
  split; [by intros b ->|].
  intros r Hr.
  pose proof (__init___body _ _ _ _ _ Hr) as Hb.
  apply _set_body_inr in Hb.
  split; [exact Hb|].
  split.
  - intros -> t. destruct Hb as [[_ Hb]|Hb]; [|discriminate].
    rewrite count_size, Hb. destruct (tracked r t); cbn; lia.
  - intros t Ht. by rewrite count_size, Ht.
Qed.

End BodyFacts.

(** ** The stage registry *)

Section RegistryFacts.

Context {World : Type}.

Implicit Types (self : Methods World) (mw : Middleware World).

Lemma _add_middleware_fields self mw :
  methods_process_request (_add_middleware self mw) =
    methods_process_request self ++ option_to_list (mw_process_request mw) ∧
  methods_process_response (_add_middleware self mw) =
    option_to_list (mw_process_response mw) ++ methods_process_response self ∧
  methods_process_exception (_add_middleware self mw) =
    option_to_list (mw_process_exception mw) ++
    methods_process_exception self.
Proof.
  unfold _add_middleware, append, appendleft.
  destruct (mw_process_request mw), (mw_process_response mw),
    (mw_process_exception mw); cbn; rewrite ?app_nil_r; done.
Qed.

Lemma omap_option_to_list {A B} (f : A → option B) (x : A) (l : list A) :
  omap f (x :: l) = option_to_list (f x) ++ omap f l.
Proof. cbn. by destruct (f x). Qed.

Lemma add_middlewares_fields mws self :
  methods_process_request (add_middlewares self mws) =
    methods_process_request self ++ omap mw_process_request mws ∧
  methods_process_response (add_middlewares self mws) =
    reverse (omap mw_process_response mws) ++ methods_process_response self ∧
  methods_process_exception (add_middlewares self mws) =
    reverse (omap mw_process_exception mws) ++
    methods_process_exception self.
Proof.
  revert self. induction mws as [|mw mws IH]; intros self.
  - cbn. by rewrite app_nil_r.
  - unfold add_middlewares in *. cbn [foldl].
    destruct (IH (_add_middleware self mw)) as (-> & -> & ->).
    destruct (_add_middleware_fields self mw) as (-> & -> & ->).
    rewrite !omap_option_to_list, !reverse_app, <- !(assoc_L (++)).
    repeat split; f_equal.
    + by destruct (mw_process_response mw).
    + by destruct (mw_process_exception mw).
Qed.

(** C2: after registering a sequence of middleware objects, the
    [process_request] deque holds their [process_request] methods in
    registration order, and the [process_response] and [process_exception]
    deques hold theirs in the reverse of registration order. *)
Theorem C2_registration_order (mws : list (Middleware World)) :
  let methods := add_middlewares no_methods mws in
  methods_process_request methods = omap mw_process_request mws ∧
  methods_process_response methods =
    reverse (omap mw_process_response mws) ∧
  methods_process_exception methods =
    reverse (omap mw_process_exception mws).
Proof.
  intros methods.
  destruct (add_middlewares_fields mws no_methods) as (H1 & H2 & H3).
  subst methods. rewrite H1, H2, H3. cbn. by rewrite !app_nil_r.
Qed.

End RegistryFacts.

(** ** Closing the feed exporter *)

Section FeedExportFacts.

Import FeedExport.

Open Scope nat_scope.

Implicit Types (slot : _FeedSlot) (slots pre post : list _FeedSlot).

(** The calls of the loop started at position [i] belong to positions from
    [i] up to the end of the list. *)
Lemma close_spider_from_calls slots : ∀ i dl c,
  c ∈ (close_spider_from i slots dl).2 →
  i ≤ call_slot c < i + length slots.
Proof.
  induction slots as [|slot rest IH]; intros i dl c; cbn.
  - intros H. by apply elem_of_nil in H.
  - destruct (empty_unstored slot).
    + cbn. intros ->%list_elem_of_singleton. cbn. lia.
    + specialize (IH (S i) (dl ++ [i])).
      destruct (close_spider_from (S i) rest (dl ++ [i]))
        as [[ret rest'] calls'].
      unfold finish_exporting.
      destruct (_exporting slot); cbn in *;
        rewrite ?elem_of_cons; intros H;
        repeat (destruct H as [->|H]); cbn; try lia;
        apply IH in H; lia.
Qed.

(** The loop over a list whose first slot with no items and [store_empty]
    false sits after [pre]. *)
Lemma close_spider_from_early pre : ∀ slot post i dl,
  forallb (λ s, negb (empty_unstored s)) pre = true →
  empty_unstored slot = true →
  close_spider_from i (pre ++ slot :: post) dl =
  (StoreDeferred (i + length pre),
   (close_spider_from i pre dl).1.2 ++ slot :: post,
   (close_spider_from i pre dl).2 ++ [StorageStore (i + length pre)]).
Proof.
  induction pre as [|s pre IH]; intros slot post i dl Hpre Hslot; cbn.
  - rewrite Hslot, Nat.add_0_r. reflexivity.
  - cbn in Hpre. apply andb_true_iff in Hpre as [Hs Hpre].
    apply negb_true_iff in Hs. rewrite Hs.
    rewrite (IH slot post (S i) (dl ++ [i]) Hpre Hslot).
    destruct (close_spider_from (S i) pre (dl ++ [i])) as [[ret pre'] calls].
    destruct (finish_exporting i s) as [s' calls0]. cbn.
    rewrite Nat.add_succ_r, <- (assoc_L (++)). reflexivity.
Qed.

Lemma first_empty_unstored slots :
  existsb empty_unstored slots = true →
  ∃ pre slot post,
    slots = pre ++ slot :: post ∧
    forallb (λ s, negb (empty_unstored s)) pre = true ∧
    empty_unstored slot = true.
Proof.
  induction slots as [|s slots IH]; cbn; [discriminate|].
  destruct (empty_unstored s) eqn:E.
  - intros _. by exists [], s, slots.
  - cbn. intros (pre & slot & post & -> & Hpre & Hslot)%IH.
    exists (s :: pre), slot, post. cbn. by rewrite E, Hpre.
Qed.

(** C9: when some slot has no exported items and [store_empty] false,
    [close_spider] returns at the first such slot.  The slots before it are
    finished and stored as usual; for that slot only [storage.store] is
    called and its Deferred is what is returned; no call is made for any
    later slot, and the later slots are left as they were. *)
Theorem C9_close_spider_returns_early slots :
  existsb empty_unstored slots = true →
  ∃ pre slot post,
    slots = pre ++ slot :: post ∧
    forallb (λ s, negb (empty_unstored s)) pre = true ∧
    empty_unstored slot = true ∧
    close_spider slots =
      (StoreDeferred (length pre),
       (close_spider pre).1.2 ++ slot :: post,
       (close_spider pre).2 ++ [StorageStore (length pre)]) ∧
    (∀ c, c ∈ (close_spider pre).2 → call_slot c < length pre) ∧
    (∀ c, c ∈ (close_spider slots).2 → call_slot c ≤ length pre).
Proof.
  intros (pre & slot & post & -> & Hpre & Hslot)%first_empty_unstored.
  exists pre, slot, post.
  assert (Hcalls : ∀ c, c ∈ (close_spider pre).2 →
                        call_slot c < length pre).
  { intros c Hc. apply close_spider_from_calls in Hc. lia. }
  assert (Heq := close_spider_from_early pre slot post 0 [] Hpre Hslot).
  repeat split; try done.
  unfold close_spider. rewrite Heq. cbn. intros c.
  rewrite elem_of_app, list_elem_of_singleton.
  intros [Hc| ->]; [apply Hcalls in Hc; lia|cbn; lia].
Qed.

End FeedExportFacts.

(** ** The pipeline executor *)

Section ExecutorFacts.

Context {World : Type}.

Implicit Types (st : St World) (request rq : Request) (log : list Event).

Variable truth : Truthiness.
Variable methods : Methods World.
Variable download_func : Request → World → Outcome * World.

(** *** Lists of events *)

Lemma app_cons_singleton {A} (l1 l2 : list A) (x y : A) :
  l1 ++ x :: l2 = [y] → l1 = [] ∧ x = y ∧ l2 = [].
Proof.
  destruct l1 as [|z l1]; cbn.
  - by intros [= -> ->].
  - intros [= _ H]. by destruct l1.
Qed.

(** An event that no element of [B] resembles lies in [A]. *)
Lemma split_in_prefix (P : Event → bool) (A B l1 l2 : list Event) e :
  Forall (λ x, P x = false) B → P e = true →
  l1 ++ e :: l2 = A ++ B →
  ∃ l2', A = l1 ++ e :: l2' ∧ l2 = l2' ++ B.
Proof.
  intros HB He. revert l1.
  induction A as [|a A IH]; intros l1 H; cbn in H.
  - subst B. apply Forall_app in HB as [_ HB].
    apply Forall_cons in HB as [HB _]. congruence.
  - destruct l1 as [|x l1]; cbn in H.
    + injection H as -> ->. by exists A.
    + injection H as -> H. destruct (IH _ H) as (l2' & -> & ->).
      by exists l2'.
Qed.

(** An event that no element of [A] resembles lies in [B]. *)
Lemma split_in_suffix (P : Event → bool) (A B l1 l2 : list Event) e :
  Forall (λ x, P x = false) A → P e = true →
  l1 ++ e :: l2 = A ++ B →
  ∃ l1', l1 = A ++ l1' ∧ B = l1' ++ e :: l2.
Proof.
  intros HA He. revert l1.
  induction A as [|a A IH]; intros l1 H; cbn in H.
  - by exists l1.
  - apply Forall_cons in HA as [Ha HA].
    destruct l1 as [|x l1]; cbn in H.
    + injection H as -> _. congruence.
    + injection H as -> H. destruct (IH HA _ H) as (l1' & -> & ->).
      by exists l1'.
Qed.

(** *** One iteration of each loop *)

Lemma process_request_from_cons method todo request st :
  process_request_from truth download_func (method :: todo) request st =
  let '(out, w) := call method request (world st) in
  let ev := EvProcessRequest (__qualname__ method) request out in
  match out with
  | Raise e => (Failed (mkFailure e), mkSt (tracker st) w, [ev])
  | Return v =>
      if negb (is_None v) && negb (isinstance_Response_or_Request v) then
        (Failed (mkFailure (_InvalidOutput
           ("Middleware " +:+ __qualname__ method +:+
            " must return None, Response or Request, got " +:+
            __name__ (type_of v)))),
         mkSt (tracker st) w, [ev])
      else if truthy truth v then
        (Succeeded v, mkSt (counted v (tracker st)) w, [ev])
      else
        let '(d, st2, log) :=
          process_request_from truth download_func todo request
            (mkSt (counted v (tracker st)) w) in
        (d, st2, ev :: log)
  end.
Proof.
  cbn [process_request_from].
  unfold mbind, Run_bind, run_bind, invoke.
  destruct (call method request (world st)) as [[v|e] w]; [|reflexivity].
  destruct v as [|b|s|z|r|q|c t]; cbn;
    repeat match goal with
           | |- context [if ?b then _ else _] => destruct b
           end;
    try reflexivity;
    by destruct (process_request_from _ _ _ _ _) as [[??]?].
Qed.

Lemma process_request_from_nil request st :
  process_request_from truth download_func [] request st =
  let '(out, w) := download_func request (world st) in
  (deferred_of out, mkSt (tracker st) w, [EvDownload request out]).
Proof.
  cbn. unfold mbind, Run_bind, run_bind, invoke.
  by destruct (download_func request (world st)).
Qed.

Lemma process_exception_from_cons method todo request failure st :
  process_exception_from truth (method :: todo) request failure st =
  let '(out, w) := call method (request, value failure) (world st) in
  let ev := EvProcessException (__qualname__ method) request
                               (value failure) out in
  match out with
  | Raise e => (Failed (mkFailure e), mkSt (tracker st) w, [ev])
  | Return v =>
      if negb (is_None v) && negb (isinstance_Response_or_Request v) then
        (Failed (mkFailure (_InvalidOutput
           ("Middleware " +:+ __qualname__ method +:+
            " must return None, Response or Request, got " +:+
            type_repr (type_of v)))),
         mkSt (tracker st) w, [ev])
      else if truthy truth v then
        (Succeeded v, mkSt (counted v (tracker st)) w, [ev])
      else
        let '(d, st2, log) :=
          process_exception_from truth todo request failure
            (mkSt (counted v (tracker st)) w) in
        (d, st2, ev :: log)
  end.
Proof.
  cbn [process_exception_from].
  unfold mbind, Run_bind, run_bind, invoke.
  destruct (call method (request, value failure) (world st))
    as [[v|e] w]; [|reflexivity].
  destruct v as [|b|s|z|r|q|c t]; cbn;
    repeat match goal with
           | |- context [if ?b then _ else _] => destruct b
           end;
    try reflexivity;
    by destruct (process_exception_from _ _ _ _ _) as [[??]?].
Qed.

Lemma process_response_from_cons method todo request result st :
  process_response_from (method :: todo) request result st =
  let '(out, w) := call method (request, result) (world st) in
  let st1 := mkSt (tracker st) w in
  let ev := EvProcessResponse (__qualname__ method) request result out in
  match out with
  | Raise e => (Failed (mkFailure e), st1, [ev])
  | Return (PyResponse r) =>
      let '(d, st2, log) :=
        process_response_from todo request (PyResponse r)
          (mkSt (Tracker._count_response_size r (tracker st)) w) in
      (d, st2, ev :: log)
  | Return (PyRequest q) => (Succeeded (PyRequest q), st1, [ev])
  | Return v =>
      (Failed (mkFailure (_InvalidOutput
         ("Middleware " +:+ __qualname__ method +:+
          " must return Response or Request, got " +:+
          type_repr (type_of v)))),
       st1, [ev])
  end.
Proof.
  cbn [process_response_from].
  unfold mbind, Run_bind, run_bind, invoke.
  destruct (call method (request, result) (world st))
    as [[v|e] w]; [|reflexivity].
  destruct v; try reflexivity.
  cbn. by destruct (process_response_from _ _ _ _) as [[??]?].
Qed.

(** The first call in the log of a loop is the call of its first method. *)
Lemma process_request_from_head method todo request st d st' ev l :
  process_request_from truth download_func (method :: todo) request st
    = (d, st', ev :: l) →
  ∃ out w, call method request (world st) = (out, w) ∧
           ev = EvProcessRequest (__qualname__ method) request out.
Proof.
  rewrite process_request_from_cons.
  destruct (call method request (world st)) as [out w].
  intros H. exists out, w. split; [done|].
  destruct out as [v|e]; cbv zeta in H; [|by injection H].
  destruct (negb _ && negb _); [by injection H|].
  destruct (truthy truth v); [by injection H|].
  destruct (process_request_from _ _ _ _ _) as [[??]?]. by injection H.
Qed.

Lemma process_exception_from_head method todo request failure st d st' ev l :
  process_exception_from truth (method :: todo) request failure st
    = (d, st', ev :: l) →
  ∃ out w, call method (request, value failure) (world st) = (out, w) ∧
           ev = EvProcessException (__qualname__ method) request
                                   (value failure) out.
Proof.
  rewrite process_exception_from_cons.
  destruct (call method (request, value failure) (world st)) as [out w].
  intros H. exists out, w. split; [done|].
  destruct out as [v|e]; cbv zeta in H; [|by injection H].
  destruct (negb _ && negb _); [by injection H|].
  destruct (truthy truth v); [by injection H|].
  destruct (process_exception_from _ _ _ _ _) as [[??]?]. by injection H.
Qed.

Lemma process_response_from_head method todo request result st d st' ev l :
  process_response_from (method :: todo) request result st
    = (d, st', ev :: l) →
  ∃ out w, call method (request, result) (world st) = (out, w) ∧
           ev = EvProcessResponse (__qualname__ method) request result out.
Proof.
  rewrite process_response_from_cons.
  destruct (call method (request, result) (world st)) as [out w].
  intros H. exists out, w. split; [done|].
  destruct out as [v|e]; cbv zeta in H; [|by injection H].
  destruct v; try (by injection H).
  destruct (process_response_from _ _ _ _) as [[??]?]. by injection H.
Qed.

(** *** What precedes an event in the log of a loop

    Up to any event of its log, a loop only saw results that are false,
    after which it goes on; the rest of the log is the log of the rest of
    the loop, started on what has been counted so far. *)

Lemma counted_event_request n rq v l t :
  count_all (stage_responses (EvProcessRequest n rq (Return v) :: l)) t =
  count_all (stage_responses l) (counted v t).
Proof. by destruct v. Qed.

Lemma counted_event_exception n rq exc v l t :
  count_all (stage_responses (EvProcessException n rq exc (Return v) :: l)) t
  = count_all (stage_responses l) (counted v t).
Proof. by destruct v. Qed.

Lemma process_request_from_suffix todo : ∀ request st d st' l1 ev l2,
  process_request_from truth download_func todo request st
    = (d, st', l1 ++ ev :: l2) →
  Forall (λ e, is_request_event e = true ∧
               ∃ v, event_outcome e = Return v ∧ truthy truth v = false)
         l1 ∧
  ∃ rest st1,
    tracker st1 = count_all (stage_responses l1) (tracker st) ∧
    process_request_from truth download_func rest request st1
      = (d, st', ev :: l2).
Proof.
  induction todo as [|method todo IH]; intros request st d st' l1 ev l2 H.
  - rewrite process_request_from_nil in H.
    destruct (download_func request (world st)) as [out w] eqn:E.
    injection H as <- <- H. symmetry in H.
    apply app_cons_singleton in H as (-> & -> & ->).
    split; [constructor|]. exists [], st. split; [done|].
    by rewrite process_request_from_nil, E.
  - destruct l1 as [|x l1].
    { split; [constructor|]. by exists (method :: todo), st. }
    rewrite process_request_from_cons in H.
    destruct (call method request (world st)) as [[v|e] w] eqn:E;
      cbv zeta in H.
    2:{ injection H as _ _ _ H. by destruct l1. }
    destruct (negb _ && negb _);
      [injection H as _ _ _ H; by destruct l1|].
    destruct (truthy truth v) eqn:Ev;
      [injection H as _ _ _ H; by destruct l1|].
    destruct (process_request_from truth download_func todo request _)
      as [[d2 st2] log] eqn:E2.
    injection H as -> -> <- ->.
    apply IH in E2 as (Hall & rest & st1 & Ht & Hrest).
    split; [constructor; [split; [done|]; by exists v|done]|].
    exists rest, st1. split; [|done].
    rewrite Ht. cbn [tracker]. by rewrite counted_event_request.
Qed.

Lemma process_exception_from_suffix todo :
  ∀ request failure st d st' l1 ev l2,
  process_exception_from truth todo request failure st
    = (d, st', l1 ++ ev :: l2) →
  Forall (λ e, is_exception_event e = true ∧
               ∃ v, event_outcome e = Return v ∧ truthy truth v = false)
         l1 ∧
  ∃ rest st1,
    tracker st1 = count_all (stage_responses l1) (tracker st) ∧
    process_exception_from truth rest request failure st1
      = (d, st', ev :: l2).
Proof.
  induction todo as [|method todo IH];
    intros request failure st d st' l1 ev l2 H.
  - cbn in H. injection H as _ _ H. by destruct l1.
  - destruct l1 as [|x l1].
    { split; [constructor|]. by exists (method :: todo), st. }
    rewrite process_exception_from_cons in H.
    destruct (call method (request, value failure) (world st))
      as [[v|e] w] eqn:E; cbv zeta in H.
    2:{ injection H as _ _ _ H. by destruct l1. }
    destruct (negb _ && negb _);
      [injection H as _ _ _ H; by destruct l1|].
    destruct (truthy truth v) eqn:Ev;
      [injection H as _ _ _ H; by destruct l1|].
    destruct (process_exception_from truth todo request failure _)
      as [[d2 st2] log] eqn:E2.
    injection H as -> -> <- ->.
    apply IH in E2 as (Hall & rest & st1 & Ht & Hrest).
    split; [constructor; [split; [done|]; by exists v|done]|].
    exists rest, st1. split; [|done].
    rewrite Ht. cbn [tracker]. by rewrite counted_event_exception.
Qed.

Lemma process_response_from_suffix todo :
  ∀ request result st d st' l1 ev l2,
  process_response_from todo request result st
    = (d, st', l1 ++ ev :: l2) →
  Forall (λ e, ∃ r, event_outcome e = Return (PyResponse r)) l1 ∧
  ∃ done rest result1 st1,
    todo = done ++ rest ∧
    length done = length l1 ∧
    process_response_from rest request result1 st1 = (d, st', ev :: l2).
Proof.
  induction todo as [|method todo IH];
    intros request result st d st' l1 ev l2 H.
  - cbn in H. injection H as _ _ H. by destruct l1.
  - destruct l1 as [|x l1].
    { split; [constructor|].
      exists [], (method :: todo), result, st. by repeat split. }
    rewrite process_response_from_cons in H.
    destruct (call method (request, result) (world st))
      as [[v|e] w] eqn:E;
      [destruct v|]; cbv zeta in H;
      try (injection H as _ _ _ H; by destruct l1).
    destruct (process_response_from todo request _ _)
      as [[d2 st2] log] eqn:E2.
    injection H as -> -> <- ->.
    apply IH in E2 as (Hall & done & rest & result1 & st1 & -> & Hlen & Hrest).
    split; [constructor; cbn; eauto|].
    exists (method :: done), rest, result1, st1.
    repeat split; cbn; auto.
Qed.

(** *** The kinds of events each phase logs *)

Lemma process_request_from_events todo : ∀ request st,
  Forall (λ e, is_request_event e || is_download_event e = true)
         (process_request_from truth download_func todo request st).2.
Proof.
  induction todo as [|method todo IH]; intros request st.
  - rewrite process_request_from_nil.
    destruct (download_func request (world st)). cbn. by constructor.
  - rewrite process_request_from_cons.
    destruct (call method request (world st)) as [[v|e] w];
      cbv zeta; [|by repeat constructor].
    destruct (negb _ && negb _); [by repeat constructor|].
    destruct (truthy truth v); [by repeat constructor|].
    specialize (IH request (mkSt (counted v (tracker st)) w)).
    destruct (process_request_from truth download_func todo request _)
      as [[d2 st2] log]. cbn in *. by constructor.
Qed.

Lemma process_exception_from_events todo : ∀ request failure st,
  Forall (λ e, is_exception_event e = true)
         (process_exception_from truth todo request failure st).2.
Proof.
  induction todo as [|method todo IH]; intros request failure st.
  - cbn. constructor.
  - rewrite process_exception_from_cons.
    destruct (call method (request, value failure) (world st))
      as [[v|e] w]; cbv zeta; [|by repeat constructor].
    destruct (negb _ && negb _); [by repeat constructor|].
    destruct (truthy truth v); [by repeat constructor|].
    specialize (IH request failure (mkSt (counted v (tracker st)) w)).
    destruct (process_exception_from truth todo request failure _)
      as [[d2 st2] log]. cbn in *. by constructor.
Qed.

Lemma process_response_from_events todo : ∀ request result st,
  Forall (λ e, is_response_event e = true)
         (process_response_from todo request result st).2.
Proof.
  induction todo as [|method todo IH]; intros request result st.
  - cbn. constructor.
  - rewrite process_response_from_cons.
    destruct (call method (request, result) (world st))
      as [[v|e] w];
      [destruct v|]; cbn; try by repeat constructor.
    match goal with
    | |- context [process_response_from todo request ?v ?s] =>
        specialize (IH request v s);
        destruct (process_response_from todo request v s) as [[d2 st2] log]
    end.
    cbn in *. by constructor.
Qed.

Lemma process_response_events request response st :
  Forall (λ e, is_response_event e = true)
         (process_response methods request response st).2.
Proof.
  unfold process_response.
  destruct (is_None response); [constructor|].
  destruct (isinstance_Request response); [constructor|].
  apply process_response_from_events.
Qed.

(** *** The three phases of a run *)

Lemma download_phases request st d st' log :
  download truth methods download_func request st = (d, st', log) →
  ∃ d1 st1 log1 d2 st2 log2 log3,
    process_request truth methods download_func request st
      = (d1, st1, log1) ∧
    addErrback (process_exception truth methods request) d1 st1
      = (d2, st2, log2) ∧
    addCallback (process_response methods request) d2 st2
      = (d, st', log3) ∧
    log = log1 ++ log2 ++ log3 ∧
    Forall (λ e, is_request_event e || is_download_event e = true) log1 ∧
    Forall (λ e, is_exception_event e = true) log2 ∧
    Forall (λ e, is_response_event e = true) log3.
Proof.
  unfold download, mbind, Run_bind, run_bind.
  destruct (process_request _ _ _ _ _) as [[d1 st1] log1] eqn:E1.
  destruct (addErrback _ d1 st1) as [[d2 st2] log2] eqn:E2.
  destruct (addCallback _ d2 st2) as [[d3 st3] log3] eqn:E3.
  intros [= <- <- <-].
  exists d1, st1, log1, d2, st2, log2, log3.
  repeat split; try done.
  - pose proof (process_request_from_events
                  (methods_process_request methods) request st) as H.
    unfold process_request in E1. by rewrite E1 in H.
  - destruct d1 as [v|f]; cbn in E2.
    + injection E2 as <- <- <-. constructor.
    + pose proof (process_exception_from_events
                    (methods_process_exception methods) request f st1) as H.
      unfold process_exception in E2. by rewrite E2 in H.
  - destruct d2 as [v|f]; cbn in E3.
    + pose proof (process_response_events request v st2) as H.
      by rewrite E3 in H.
    + injection E3 as <- <- <-. constructor.
Qed.

Lemma Forall_kind (P Q : Event → bool) (l : list Event) :
  (∀ e, P e = true → Q e = false) →
  Forall (λ e, P e = true) l → Forall (λ e, Q e = false) l.
Proof. intros H HP. eapply Forall_impl; [exact HP|exact H]. Qed.

Lemma Forall_request_events (l : list Event) :
  Forall (λ e, is_request_event e = true ∧
               ∃ v, event_outcome e = Return v ∧ truthy truth v = false) l →
  Forall (λ e, is_request_event e = true) l.
Proof. intros H. eapply Forall_impl; [exact H|]. by intros e [??]. Qed.

(** When every exception stage that ran returned [None], all of them ran
    and the phase gives back the failure it was given. *)
Lemma process_exception_from_all_none todo :
  ∀ request failure st d st' log,
  process_exception_from truth todo request failure st = (d, st', log) →
  Forall (λ ev, event_outcome ev = Return PyNone) log →
  d = Failed failure ∧ tracker st' = tracker st ∧
  log = map (λ m, EvProcessException (__qualname__ m) request
                                     (value failure) (Return PyNone)) todo.
Proof.
  induction todo as [|method todo IH];
    intros request failure st d st' log H Hall.
  - cbn in H. by injection H as <- <- <-.
  - rewrite process_exception_from_cons in H.
    destruct (call method (request, value failure) (world st))
      as [[v|e] w] eqn:E; cbv zeta in H.
    2:{ injection H as <- <- <-.
        apply Forall_cons in Hall as [Hall _]. by cbn in Hall. }
    assert (v = PyNone) as ->.
    { destruct (negb _ && negb _); [|destruct (truthy truth v)];
        try destruct (process_exception_from _ _ _ _ _) as [[??]?];
        injection H as <- <- <-;
        apply Forall_cons in Hall as [Hall _]; cbn in Hall; congruence. }
    cbn in H.
    destruct (process_exception_from truth todo request failure _)
      as [[d2 st2] log2] eqn:E2.
    injection H as <- <- <-.
    apply Forall_cons in Hall as [_ Hall].
    destruct (IH _ _ _ _ _ _ E2 Hall) as (-> & -> & ->).
    by repeat split.
Qed.

(** From a call in the log of a run to the loop that made it. *)
Lemma request_event_inv request st d st' log l1 ev l2 :
  download truth methods download_func request st = (d, st', log) →
  log = l1 ++ ev :: l2 →
  is_request_event ev || is_download_event ev = true →
  Forall (λ e, is_request_event e = true ∧
               ∃ v, event_outcome e = Return v ∧ truthy truth v = false)
         l1 ∧
  ∃ rest st0 d1 st1 l2' d2 st2 log2 log3,
    tracker st0 = count_all (stage_responses l1) (tracker st) ∧
    process_request_from truth download_func rest request st0
      = (d1, st1, ev :: l2') ∧
    addErrback (process_exception truth methods request) d1 st1
      = (d2, st2, log2) ∧
    addCallback (process_response methods request) d2 st2
      = (d, st', log3) ∧
    l2 = l2' ++ log2 ++ log3 ∧
    Forall (λ e, is_exception_event e = true) log2 ∧
    Forall (λ e, is_response_event e = true) log3.
Proof.
  intros Hrun Hlog Hev.
  apply download_phases in Hrun
    as (d1 & st1 & log1 & d2 & st2 & log2 & log3 &
        H1 & H2 & H3 & -> & K1 & K2 & K3).
  symmetry in Hlog.
  apply (split_in_prefix (λ e, is_request_event e || is_download_event e))
    in Hlog as (l2' & -> & ->); [| |done].
  2:{ apply Forall_app. split.
      - revert K2. apply Forall_kind. by intros [].
      - revert K3. apply Forall_kind. by intros []. }
  unfold process_request in H1.
  apply process_request_from_suffix in H1
    as (Hall & rest & st0 & Ht & H1).
  split; [done|].
  by exists rest, st0, d1, st1, l2', d2, st2, log2, log3.
Qed.

Lemma exception_event_inv request st d st' log l1 ev l2 :
  download truth methods download_func request st = (d, st', log) →
  log = l1 ++ ev :: l2 →
  is_exception_event ev = true →
  ∃ failure rest st0 d2 st2 l2' log3,
    process_exception_from truth rest request failure st0
      = (d2, st2, ev :: l2') ∧
    addCallback (process_response methods request) d2 st2
      = (d, st', log3) ∧
    l2 = l2' ++ log3 ∧
    Forall (λ e, is_response_event e = true) log3.
Proof.
  intros Hrun Hlog Hev.
  apply download_phases in Hrun
    as (d1 & st1 & log1 & d2 & st2 & log2 & log3 &
        H1 & H2 & H3 & -> & K1 & K2 & K3).
  symmetry in Hlog.
  apply (split_in_suffix is_exception_event) in Hlog as (l1' & -> & Hlog);
    [| |done].
  2:{ revert K1. apply Forall_kind. by intros []. }
  symmetry in Hlog.
  apply (split_in_prefix is_exception_event) in Hlog as (l2' & -> & ->);
    [| |done].
  2:{ revert K3. apply Forall_kind. by intros []. }
  destruct d1 as [result|failure]; cbn in H2;
    [injection H2 as _ _ H2; by destruct l1'|].
  unfold process_exception in H2.
  apply process_exception_from_suffix in H2
    as (_ & rest & st0 & _ & H2).
  by exists failure, rest, st0, d2, st2, l2', log3.
Qed.

Lemma response_event_inv request st d st' log l1 ev l2 :
  download truth methods download_func request st = (d, st', log) →
  log = l1 ++ ev :: l2 →
  is_response_event ev = true →
  ∃ rest result st0,
    process_response_from rest request result st0 = (d, st', ev :: l2).
Proof.
  intros Hrun Hlog Hev.
  apply download_phases in Hrun
    as (d1 & st1 & log1 & d2 & st2 & log2 & log3 &
        H1 & H2 & H3 & -> & K1 & K2 & K3).
  symmetry in Hlog. rewrite (assoc_L (++)) in Hlog.
  apply (split_in_suffix is_response_event) in Hlog as (l1' & -> & ->);
    [| |done].
  2:{ apply Forall_app. split.
      - revert K1. apply Forall_kind. by intros [].
      - revert K2. apply Forall_kind. by intros []. }
  destruct d2 as [result|f]; cbn in H3;
    [|injection H3 as _ _ H3; by destruct l1'].
  unfold process_response in H3.
  destruct (is_None result); [injection H3 as _ _ H3; by destruct l1'|].
  destruct (isinstance_Request result);
    [injection H3 as _ _ H3; by destruct l1'|].
  apply process_response_from_suffix in H3
    as (_ & done & rest & result1 & st0 & _ & _ & H3).
  by exists rest, result1, st0.
Qed.

Lemma no_request_or_download (log2 log3 : list Event) :
  Forall (λ e, is_exception_event e = true) log2 →
  Forall (λ e, is_response_event e = true) log3 →
  Forall (λ e, is_request_event e = false ∧ is_download_event e = false)
         (log2 ++ log3).
Proof.
  intros K2 K3. apply Forall_app. split.
  - eapply Forall_impl; [exact K2|]. by intros [].
  - eapply Forall_impl; [exact K3|]. by intros [].
Qed.



(** C4: when a response stage returns a Request, it is the last call of
    the run and that Request is the run's result. *)
Theorem C4_response_stage_request request st d st' log l1 name rq rs q l2 :
  download truth methods download_func request st = (d, st', log) →
  log = l1 ++ EvProcessResponse name rq rs (Return (PyRequest q)) :: l2 →
  l2 = [] ∧ d = Succeeded (PyRequest q).
Proof.
  intros Hrun Hlog.
  destruct (response_event_inv _ _ _ _ _ _ _ _ Hrun Hlog eq_refl)
    as (rest & result & st0 & H3).
  destruct rest as [|method rest]; [by injection H3|].
  destruct (process_response_from_head _ _ _ _ _ _ _ _ _ H3)
    as (out & w & E & [= -> -> -> <-]).
  rewrite process_response_from_cons, E in H3. cbn in H3.
  by injection H3 as <- _ <-.
Qed.

(** C6: when the download function raises and every exception stage
    returns [None], every exception stage is called with that exception,
    the run ends with the Failure of that exception, and no response stage
    is called. *)
Theorem C6_unrecovered_fault request st d st' log l1 rq e l2 :
  download truth methods download_func request st = (d, st', log) →
  log = l1 ++ EvDownload rq (Raise e) :: l2 →
  Forall (λ ev, is_exception_event ev = true →
                event_outcome ev = Return PyNone) log →
  d = Failed (mkFailure e) ∧
  Forall (λ ev, is_response_event ev = false) log ∧
  rq = request ∧
  l2 = map (λ m, EvProcessException (__qualname__ m) request e
                                    (Return PyNone))
           (methods_process_exception methods).
Proof.
  intros Hrun Hlog Hnone.
  destruct (request_event_inv _ _ _ _ _ _ _ _ Hrun Hlog eq_refl)
    as (Hall & rest & st0 & d1 & st1 & l2' & d2 & st2 & log2 & log3 &
        Ht & H1 & H2 & H3 & -> & K2 & K3).
  destruct rest as [|method rest].
  2:{ by destruct (process_request_from_head _ _ _ _ _ _ _ _ H1)
        as (out & w & _ & [=]). }
  rewrite process_request_from_nil in H1.
  destruct (download_func request (world st0)) as [out w].
  injection H1 as <- <- -> -> <-.
  cbn in H2. unfold process_exception in H2.
  apply process_exception_from_all_none in H2 as (-> & Ht2 & ->).
  2:{ subst log. apply Forall_app in Hnone as [_ Hnone].
      apply Forall_cons in Hnone as [_ Hnone]. cbn [app] in Hnone.
      apply Forall_app in Hnone as [Hnone _].
      apply Forall_forall. intros ev Hev.
      rewrite Forall_forall in Hnone, K2. auto. }
  cbn in H3. injection H3 as <- <- <-.
  cbn [value] in *. rewrite !app_nil_r. cbn [app].
  split; [done|]. split; [|done].
  subst log. apply Forall_app. split.
  - eapply Forall_impl; [exact Hall|]. intros ev [Hev _].
    by destruct ev.
  - constructor; [done|]. rewrite app_nil_r. cbn [app].
    apply Forall_map, Forall_true. by intros m.
Qed.

(** What the download function gives is handed on as it is: a Response it
    yields goes to the response phase without being counted, and without a
    response stage the run ends with it. *)
Lemma download_result_not_counted request st d st' log l1 rq r l2 :
  download truth methods download_func request st = (d, st', log) →
  log = l1 ++ EvDownload rq (Return (PyResponse r)) :: l2 →
  rq = request ∧
  ∃ st1,
    process_response methods request (PyResponse r) st1 = (d, st', l2) ∧
    (methods_process_response methods = [] →
     d = Succeeded (PyResponse r) ∧ l2 = [] ∧ st' = st1).
Proof.
  intros Hrun Hlog.
  destruct (request_event_inv _ _ _ _ _ _ _ _ Hrun Hlog eq_refl)
    as (Hall & rest & st0 & d1 & st1 & l2' & d2 & st2 & log2 & log3 &
        Ht & H1 & H2 & H3 & -> & K2 & K3).
  destruct rest as [|method rest].
  2:{ by destruct (process_request_from_head _ _ _ _ _ _ _ _ H1)
        as (out & w & _ & [=]). }
  rewrite process_request_from_nil in H1.
  destruct (download_func request (world st0)) as [out w].
  injection H1 as <- <- -> -> <-.
  cbn in H2. injection H2 as <- <- <-. cbn in H3. cbn [app].
  split; [done|]. exists (mkSt (tracker st0) w). split; [done|].
  intros Hnil. unfold process_response in H3. rewrite Hnil in H3.
  cbn in H3. by injection H3 as <- <- <-.
Qed.

(** *** Validation of what a stage returns *)

(** A request stage returns something that is not [None], a Response or a
    Request: the request phase raises [_InvalidOutput]; the exception phase
    runs on that failure, and the response phase on what it gives. *)
Lemma request_stage_invalid request st d st' log l1 name rq v l2 :
  download truth methods download_func request st = (d, st', log) →
  log = l1 ++ EvProcessRequest name rq (Return v) :: l2 →
  is_None v = false → isinstance_Response_or_Request v = false →
  ∃ st1 d2 st2 log2 log3,
    process_exception truth methods request
      (mkFailure (_InvalidOutput
         ("Middleware " +:+ name +:+
          " must return None, Response or Request, got " +:+
          __name__ (type_of v)))) st1 = (d2, st2, log2) ∧
    addCallback (process_response methods request) d2 st2
      = (d, st', log3) ∧
    l2 = log2 ++ log3 ∧
    Forall (λ e, is_exception_event e = true) log2 ∧
    Forall (λ e, is_response_event e = true) log3.
Proof.
  intros Hrun Hlog Hnone Hinst.
  destruct (request_event_inv _ _ _ _ _ _ _ _ Hrun Hlog eq_refl)
    as (Hall & rest & st0 & d1 & st1 & l2' & d2 & st2 & log2 & log3 &
        Ht & H1 & H2 & H3 & -> & K2 & K3).
  destruct rest as [|method rest].
  { rewrite process_request_from_nil in H1.
    destruct (download_func request (world st0)). by injection H1. }
  destruct (process_request_from_head _ _ _ _ _ _ _ _ H1)
    as (out & w & E & [= -> -> <-]).
  rewrite process_request_from_cons, E in H1. cbv zeta in H1.
  rewrite Hnone, Hinst in H1. cbn in H1.
  injection H1 as <- <- <-. cbn in H2. cbn [app].
  by exists (mkSt (tracker st0) w), d2, st2, log2, log3.
Qed.

(** An exception stage returns such a value: the run fails with
    [_InvalidOutput] there. *)
Lemma exception_stage_invalid request st d st' log l1 name rq exc v l2 :
  download truth methods download_func request st = (d, st', log) →
  log = l1 ++ EvProcessException name rq exc (Return v) :: l2 →
  is_None v = false → isinstance_Response_or_Request v = false →
  l2 = [] ∧
  d = Failed (mkFailure (_InvalidOutput
        ("Middleware " +:+ name +:+
         " must return None, Response or Request, got " +:+
         type_repr (type_of v)))).
Proof.
  intros Hrun Hlog Hnone Hinst.
  destruct (exception_event_inv _ _ _ _ _ _ _ _ Hrun Hlog eq_refl)
    as (failure & rest & st0 & d2 & st2 & l2' & log3 &
        H2 & H3 & -> & K3).
  destruct rest as [|method rest]; [by injection H2|].
  destruct (process_exception_from_head _ _ _ _ _ _ _ _ _ H2)
    as (out & w & E & [= -> -> -> <-]).
  rewrite process_exception_from_cons, E in H2. cbv zeta in H2.
  rewrite Hnone, Hinst in H2. cbn in H2.
  injection H2 as <- <- <-. cbn in H3. by injection H3 as <- <- <-.
Qed.

(** A response stage returns something that is not a Response or a
    Request: the run fails with [_InvalidOutput] there. *)
Lemma response_stage_invalid request st d st' log l1 name rq rs v l2 :
  download truth methods download_func request st = (d, st', log) →
  log = l1 ++ EvProcessResponse name rq rs (Return v) :: l2 →
  isinstance_Response_or_Request v = false →
  l2 = [] ∧
  d = Failed (mkFailure (_InvalidOutput
        ("Middleware " +:+ name +:+
         " must return Response or Request, got " +:+
         type_repr (type_of v)))).
Proof.
  intros Hrun Hlog Hinst.
  destruct (response_event_inv _ _ _ _ _ _ _ _ Hrun Hlog eq_refl)
    as (rest & result & st0 & H3).
  destruct rest as [|method rest]; [by injection H3|].
  destruct (process_response_from_head _ _ _ _ _ _ _ _ _ H3)
    as (out & w & E & [= -> -> -> <-]).
  rewrite process_response_from_cons, E in H3.
  destruct v; try discriminate Hinst; by injection H3 as <- _ <-.
Qed.

(** C5 (amended): what each phase does with the value a stage returns.
    - Request and exception phase: after [None] the loop goes on with the
      next stage, state and failure unchanged.
    - Request phase: a value that is not [None], a Response or a Request
      makes the phase raise [_InvalidOutput], whose message names the stage
      and the class of the value.  That failure goes through the exception
      phase as any other: the run fails with it when every exception stage
      returns [None].
    - Exception phase: such a value ends the run with [_InvalidOutput].
    - Response phase: a value that is not a Response or a Request, [None]
      too, ends the run with [_InvalidOutput]. *)
Theorem C5_stage_output_validation :
  (∀ method todo request st w,
     call method request (world st) = (Return PyNone, w) →
     process_request_from truth download_func (method :: todo) request st =
     let '(d, st', log) :=
       process_request_from truth download_func todo request
                            (mkSt (tracker st) w) in
     (d, st',
      EvProcessRequest (__qualname__ method) request (Return PyNone) :: log))
  ∧
  (∀ method todo request failure st w,
     call method (request, value failure) (world st) = (Return PyNone, w) →
     process_exception_from truth (method :: todo) request failure st =
     let '(d, st', log) :=
       process_exception_from truth todo request failure
                              (mkSt (tracker st) w) in
     (d, st',
      EvProcessException (__qualname__ method) request (value failure)
                         (Return PyNone) :: log))
  ∧
  (∀ request st d st' log l1 name rq v l2,
     download truth methods download_func request st = (d, st', log) →
     log = l1 ++ EvProcessRequest name rq (Return v) :: l2 →
     is_None v = false → isinstance_Response_or_Request v = false →
     let failure :=
       mkFailure (_InvalidOutput
         ("Middleware " +:+ name +:+
          " must return None, Response or Request, got " +:+
          __name__ (type_of v))) in
     (∃ st1 d2 st2 log2 log3,
        process_exception truth methods request failure st1
          = (d2, st2, log2) ∧
        addCallback (process_response methods request) d2 st2
          = (d, st', log3) ∧
        l2 = log2 ++ log3) ∧
     (Forall (λ ev, is_exception_event ev = true →
                    event_outcome ev = Return PyNone) l2 →
      d = Failed failure ∧
      Forall (λ ev, is_exception_event ev = true) l2))
  ∧
  (∀ request st d st' log l1 name rq exc v l2,
     download truth methods download_func request st = (d, st', log) →
     log = l1 ++ EvProcessException name rq exc (Return v) :: l2 →
     is_None v = false → isinstance_Response_or_Request v = false →
     l2 = [] ∧
     d = Failed (mkFailure (_InvalidOutput
           ("Middleware " +:+ name +:+
            " must return None, Response or Request, got " +:+
            type_repr (type_of v)))))
  ∧
  (∀ request st d st' log l1 name rq rs v l2,
     download truth methods download_func request st = (d, st', log) →
     log = l1 ++ EvProcessResponse name rq rs (Return v) :: l2 →
     isinstance_Response_or_Request v = false →
     l2 = [] ∧
     d = Failed (mkFailure (_InvalidOutput
           ("Middleware " +:+ name +:+
            " must return Response or Request, got " +:+
            type_repr (type_of v))))).
Proof.
  split.
  { intros method todo request st w E.
    by rewrite process_request_from_cons, E. }
  split.
  { intros method todo request failure st w E.
    by rewrite process_exception_from_cons, E. }
  split.
  { intros request st d st' log l1 name rq v l2 Hrun Hlog Hnone Hinst failure.
    destruct (request_stage_invalid _ _ _ _ _ _ _ _ _ _ Hrun Hlog Hnone Hinst)
      as (st1 & d2 & st2 & log2 & log3 & H2 & H3 & -> & K2 & K3).
    split; [by exists st1, d2, st2, log2, log3|].
    intros Hall. unfold process_exception in H2.
    apply process_exception_from_all_none in H2 as (-> & _ & ->).
    - cbn in H3. injection H3 as <- <- <-.
      split; [done|]. rewrite app_nil_r.
      apply Forall_map, Forall_true. by intros m.
    - apply Forall_app in Hall as [Hall _].
      apply Forall_forall. intros ev Hev.
      rewrite Forall_forall in Hall, K2. auto. }
  split.
  { intros. by eapply exception_stage_invalid. }
  intros. by eapply response_stage_invalid.
Qed.

End ExecutorFacts.

(** ** The properties at concrete runs *)

Section Concrete.

Import Examples.

(** C1: with no middleware registered, the run for [request0] calls the
    download function once and its Response [R], whose body has three
    bytes, is the run's result; but nothing tracks [R]:
    [response_active_size] is still 0 and the tracking set is still
    empty when the run yields. *)
Theorem C1_downloaded_response_not_tracked :
  let '(d, st', log) := run [] download_R in
  log = [EvDownload request0 (Return (PyResponse R))] ∧
  d = Succeeded (PyResponse R) ∧
  length (body R) = 3%nat ∧
  Tracker.tracked R (tracker st') = false ∧
  Tracker.response_active_size (tracker st') = 0 ∧
  tracker st' = Tracker.init.
Proof. vm_compute. by repeat split. Qed.

(** The request stage of [mws_broken_recovered] returns [42], and the run
    ends with the Response its exception stage gave: a run in which a
    request stage returns an invalid value need not fail. *)
Lemma C5_counterexample :
  ¬ (∀ (World : Type) truth (methods : Methods World) download_func request
       st d st' log l1 name rq v l2,
       download truth methods download_func request st = (d, st', log) →
       log = l1 ++ EvProcessRequest name rq (Return v) :: l2 →
       is_None v = false → isinstance_Response_or_Request v = false →
       ∃ msg, d = Failed (mkFailure (_InvalidOutput msg))).
Proof.
  intros H.
  pose (fallback :=
    EvProcessException "Fallback.process_exception" request0
      (_InvalidOutput
         ("Middleware Broken.process_request must return " +:+
          "None, Response or Request, got int"))
      (Return (PyResponse R))).
  destruct (H unit all_true
              (add_middlewares no_methods mws_broken_recovered)
              download_R request0 st0
              (Succeeded (PyResponse R))
              (mkSt (Tracker._count_response_size R Tracker.init) ())
              [EvProcessRequest "Broken.process_request" request0
                                (Return (PyInt 42)); fallback]
              [] "Broken.process_request" request0 (PyInt 42) [fallback]
              eq_refl eq_refl eq_refl eq_refl) as [msg Hmsg].
  discriminate Hmsg.
Qed.



Lemma C4_witness :
  (run mws_redirect download_R).1.1 = Succeeded (PyRequest request1).
Proof.
  refine (proj2 (C4_response_stage_request all_true
    (add_middlewares no_methods mws_redirect) download_R request0 st0
    _ _ _ [EvDownload request0 (Return (PyResponse R))]
    "Redirect.process_response" request0 (PyResponse R) request1 []
    _ _)); reflexivity.
Defined.

Lemma C6_witness :
  (run mws_passive download_timeout).1.1 = Failed (mkFailure timeout) ∧
  Forall (λ ev, is_response_event ev = false)
         (run mws_passive download_timeout).2.
Proof.
  assert (H := C6_unrecovered_fault all_true
    (add_middlewares no_methods mws_passive) download_timeout request0 st0
    (run mws_passive download_timeout).1.1
    (run mws_passive download_timeout).1.2
    (run mws_passive download_timeout).2
    [] request0 timeout
    [EvProcessException "Passive.process_exception" request0 timeout
                        (Return PyNone)]
    eq_refl eq_refl).
  destruct H as (Hd & Hresp & _).
  - repeat constructor; by intros [=].
  - by split.
Defined.

Lemma C5_witness :
  (process_request_from all_true download_R
     [always "Idle.process_request" (Return PyNone)] request0 st0 =
   let '(d, st', log) :=
     process_request_from all_true download_R [] request0 st0 in
   (d, st',
    EvProcessRequest "Idle.process_request" request0 (Return PyNone) :: log))
  ∧
  (process_exception_from all_true
     [always "Passive.process_exception" (Return PyNone)]
     request0 (mkFailure timeout) st0 =
   let '(d, st', log) :=
     process_exception_from all_true [] request0 (mkFailure timeout) st0 in
   (d, st',
    EvProcessException "Passive.process_exception" request0 timeout
                       (Return PyNone) :: log))
  ∧
  (run mws_broken download_R).1.1 =
    Failed (mkFailure (_InvalidOutput
      ("Middleware Broken.process_request must return " +:+
       "None, Response or Request, got int")))
  ∧
  (run mws_broken_exception download_timeout).1.1 =
    Failed (mkFailure (_InvalidOutput
      ("Middleware Broken.process_exception must return " +:+
       "None, Response or Request, got <class 'int'>")))
  ∧
  (run mws_none_response download_R).1.1 =
    Failed (mkFailure (_InvalidOutput
      ("Middleware Silent.process_response must return " +:+
       "Response or Request, got <class 'NoneType'>"))).
Proof.
  destruct (C5_stage_output_validation all_true
              (add_middlewares no_methods mws_broken) download_R)
    as (H1 & H2 & H3 & _).
  destruct (C5_stage_output_validation all_true
              (add_middlewares no_methods mws_broken_exception)
              download_timeout)
    as (_ & _ & _ & H4 & _).
  destruct (C5_stage_output_validation all_true
              (add_middlewares no_methods mws_none_response) download_R)
    as (_ & _ & _ & _ & H5).
  split.
  { exact (H1 (always "Idle.process_request" (Return PyNone)) []
              request0 st0 () eq_refl). }
  split.
  { exact (H2 (always "Passive.process_exception" (Return PyNone)) []
              request0 (mkFailure timeout) st0 () eq_refl). }
  split.
  { destruct (H3 request0 st0
                (run mws_broken download_R).1.1
                (run mws_broken download_R).1.2
                (run mws_broken download_R).2
                [] "Broken.process_request" request0 (PyInt 42) []
                eq_refl eq_refl eq_refl eq_refl) as [_ Hfail].
    destruct Hfail as [Hd _]; [constructor|exact Hd]. }
  split.
  { exact (proj2 (H4 request0 st0
                (run mws_broken_exception download_timeout).1.1
                (run mws_broken_exception download_timeout).1.2
                (run mws_broken_exception download_timeout).2
                [EvDownload request0 (Raise timeout)]
                "Broken.process_exception" request0 timeout (PyInt 42) []
                eq_refl eq_refl eq_refl eq_refl)). }
  exact (proj2 (H5 request0 st0
                (run mws_none_response download_R).1.1
                (run mws_none_response download_R).1.2
                (run mws_none_response download_R).2
                [EvDownload request0 (Return (PyResponse R))]
                "Silent.process_response" request0 (PyResponse R) PyNone []
                eq_refl eq_refl eq_refl)).
Defined.

Lemma C7_witness :
  Tracker._count_response_size R
    (Tracker._count_response_size R Tracker.init) =
  Tracker._count_response_size R Tracker.init ∧
  Tracker.response_active_size
    (Nat.iter 3 (Tracker._count_response_size R) Tracker.init) = 0 + 3.
Proof.
  split.
  - exact (proj1 (C7_track_idempotent R
                    (Tracker._count_response_size R Tracker.init) 0)
                 eq_refl).
  - exact (proj2 (proj2 (proj2 (C7_track_idempotent R Tracker.init 2)))
                 eq_refl).
Defined.

Lemma C9_witness :
  ∃ pre slot post,
    slots = pre ++ slot :: post ∧
    forallb (λ s, negb (FeedExport.empty_unstored s)) pre = true ∧
    FeedExport.empty_unstored slot = true ∧
    FeedExport.close_spider slots =
      (FeedExport.StoreDeferred (length pre),
       (FeedExport.close_spider pre).1.2 ++ slot :: post,
       (FeedExport.close_spider pre).2 ++
         [FeedExport.StorageStore (length pre)]) ∧
    (∀ c, c ∈ (FeedExport.close_spider pre).2 →
          (FeedExport.call_slot c < length pre)%nat) ∧
    (∀ c, c ∈ (FeedExport.close_spider slots).2 →
          (FeedExport.call_slot c ≤ length pre)%nat).
Proof. exact (C9_close_spider_returns_early slots eq_refl). Defined.

Lemma C10_witness :
  (∃ msg, Http._set_body (PyStr "text") = inl (TypeError msg) ∧
          Http.__init__ 2%positive (PyStr "http://example.com/") 200
                        (PyStr "text") = inl (TypeError msg)) ∧
  Http._set_body (PyBytes (body R)) = inr (body R) ∧
  Tracker.response_active_size
    (Tracker._count_response_size R Tracker.init) =
  Tracker.response_active_size Tracker.init + 3.
Proof.
  pose proof (C10_response_body 2%positive (PyStr "http://example.com/")
                                200 (PyStr "text")) as (_ & Hstr & _).
  pose proof (C10_response_body 2%positive (PyStr "http://example.com/")
                                200 (PyBytes (body R)))
    as (_ & _ & Hbytes & Hinit).
  split; [exact (Hstr eq_refl eq_refl)|].
  split; [exact (Hbytes (body R) eq_refl)|].
  exact (proj2 (proj2 (Hinit R eq_refl)) Tracker.init eq_refl).
Defined.

End Concrete.

(* ===================================================================== *)
(** * Further properties                                                  *)
(* ===================================================================== *)

(** ** The tracker over its lifetime *)

Section TrackerLifetime.

Import Tracker.

Implicit Types (self : t) (r : Response) (i : ident).

Lemma tracked_bytes_nonneg (m : gmap ident Response) :
  0 ≤ map_fold add_len 0 m.
Proof.
  apply (map_fold_weak_ind (λ z _, 0 ≤ z)); [done|].
  intros i x m' z _ Hz. unfold add_len. lia.
Qed.

Lemma run_snoc ops o self : run (ops ++ [o]) self = step (run ops self) o.
Proof. unfold run. by rewrite foldl_app. Qed.

(** A finalizer is only held for a response that is in the tracking set. *)
Lemma finalizers_tracked ops :
  ∀ cb, cb ∈ _finalizers (run ops init) →
        is_Some (_tracked_responses (run ops init) !! cb.1).
Proof.
  induction ops as [|o ops IH] using rev_ind.
  - cbn. intros cb H. by apply elem_of_nil in H.
  - rewrite run_snoc. set (self := run ops init) in *.
    destruct o as [r|i]; cbn [step].
    + unfold _count_response_size.
      destruct (tracked r self) eqn:E; [exact IH|].
      cbn. intros cb [H|H]%elem_of_app.
      * apply IH in H. rewrite lookup_insert.
        case_decide; [eauto|done].
      * apply list_elem_of_singleton in H as ->. cbn.
        rewrite lookup_insert_eq. eauto.
    + rewrite finalize_object_eq. cbn.
      intros cb [Hne H]%list_elem_of_filter.
      rewrite lookup_delete_ne by done. by apply IH.
Qed.

Lemma filter_all {A} (P : A → Prop) `{∀ x, Decision (P x)} (l : list A) :
  (∀ x, x ∈ l → P x) → filter P l = l.
Proof.
  induction l as [|x l IH]; intros HP; [done|].
  rewrite filter_cons_True by (apply HP; left).
  f_equal. apply IH. intros y Hy. apply HP. by right.
Qed.

Lemma untracked_no_finalizer ops i :
  _tracked_responses (run ops init) !! i = None →
  filter (λ cb, cb.1 ≠ i) (_finalizers (run ops init)) =
  _finalizers (run ops init).
Proof.
  intros Hi. apply filter_all. intros cb Hcb Heq.
  apply finalizers_tracked in Hcb. rewrite Heq, Hi in Hcb.
  by destruct Hcb.
Qed.

(** X1: the counter never goes below zero, whatever responses are tracked
    and released, in whatever order. *)
Theorem tracker_counter_nonneg (ops : list op) :
  0 ≤ response_active_size (run ops init).
Proof.
  destruct (well_formed_run ops init well_formed_init) as [Hc _].
  rewrite Hc. apply tracked_bytes_nonneg.
Qed.

(** X2: releasing a response right after it was first tracked gives back
    the tracker as it was: counter, tracking set and finalizers. *)
Theorem release_undoes_track (ops : list op) r :
  tracked r (run ops init) = false →
  finalize_object (response_id r) (_count_response_size r (run ops init)) =
  run ops init.
Proof.
  intros Hr.
  destruct (well_formed_run ops init well_formed_init) as [_ Hf].
  pose proof (untracked_no_finalizer ops (response_id r)) as Hfin.
  set (self := run ops init) in *.
  apply tracked_false in Hr as Hnone.
  specialize (Hf (response_id r)). rewrite Hnone in Hf.
  rewrite finalize_object_eq. unfold _count_response_size. rewrite Hr.
  cbn [response_active_size _tracked_responses _finalizers].
  rewrite registered_app, Hf, filter_app, Hfin by done.
  rewrite delete_insert_id by done.
  unfold registered.
  rewrite (filter_cons (λ cb, cb.1 = response_id r)), filter_nil.
  rewrite (filter_cons (λ cb, cb.1 ≠ response_id r)), filter_nil.
  cbn [fst]. rewrite decide_True by done. rewrite decide_False by tauto.
  cbn. rewrite app_nil_r. destruct self; cbn. f_equal. lia.
Qed.

(** X3: the release of an identity that is not in the tracking set changes
    nothing. *)
Theorem release_untracked_noop (ops : list op) i :
  _tracked_responses (run ops init) !! i = None →
  finalize_object i (run ops init) = run ops init.
Proof.
  intros Hi.
  destruct (well_formed_run ops init well_formed_init) as [_ Hf].
  pose proof (untracked_no_finalizer ops i Hi) as Hfin.
  set (self := run ops init) in *.
  specialize (Hf i). rewrite Hi in Hf.
  rewrite finalize_object_eq, Hf, Hfin, delete_id by done.
  destruct self; cbn. f_equal. lia.
Qed.

Lemma tracked_count_other r r' self :
  response_id r ≠ response_id r' →
  tracked r' (_count_response_size r self) = tracked r' self.
Proof.
  intros Hne. unfold _count_response_size.
  destruct (tracked r self); [done|].
  unfold tracked. cbn. by rewrite lookup_insert_ne.
Qed.

(** X4: responses of pairwise different identities, none of them tracked
    yet, add the sum of their body lengths. *)
Theorem count_all_distinct (rs : list Response) self :
  NoDup (response_id <$> rs) →
  Forall (λ r, tracked r self = false) rs →
  response_active_size (count_all rs self) =
  response_active_size self + total_len rs.
Proof.
  revert self. induction rs as [|r rs IH]; intros self Hnd Hall.
  - cbn. lia.
  - cbn [fmap list_fmap] in Hnd. apply NoDup_cons in Hnd as [Hr Hnd].
    apply Forall_cons in Hall as [Hr0 Hall].
    unfold count_all in *. cbn [foldl]. rewrite IH; [|done|].
    + rewrite count_size, Hr0. unfold total_len. cbn [foldr]. lia.
    + rewrite Forall_forall in Hall |- *. intros r' Hr'.
      rewrite tracked_count_other; [by apply Hall|].
      intros Heq. apply Hr. rewrite Heq.
      apply list_elem_of_fmap. eauto.
Qed.

End TrackerLifetime.

(** ** Replacing and copying a Response *)

Section ReplaceFacts.

Import ResponseMethods.

(** X5: [replace] gives a Response exactly when the url given, if any, is
    a str and the body given, if any, is [None] or bytes.  The Response it
    gives is a new instance, and every attribute that was not given is the
    one of the original; a body given as [None] becomes empty. *)
Theorem replace_succeeds_iff (self : Response) new kwargs :
  ((∃ r, replace self new kwargs = inr r) ↔
   (∀ v, kw_url kwargs = Some v → isinstance_str v = true) ∧
   (∀ v, kw_body kwargs = Some v →
         is_None v = true ∨ isinstance_bytes v = true)) ∧
  (∀ r, replace self new kwargs = inr r →
     response_id r = new ∧
     status r = default (status self) (kw_status kwargs) ∧
     (kw_url kwargs = None → _url r = _url self) ∧
     (kw_body kwargs = None → body r = body self) ∧
     (kw_body kwargs = Some PyNone → body r = [])).
Proof.
  destruct kwargs as [u s b]. unfold replace, Http.__init__. cbn.
  split.
  - split.
    + intros [r Hr]. split.
      * intros v ->. cbn in Hr.
        destruct (Http._set_body _); [done|]. by destruct v.
      * intros v ->. cbn in Hr. destruct v; cbn in *; auto; done.
    + intros [Hu Hb].
      assert (∃ bs, Http._set_body (default (PyBytes (body self)) b)
                    = inr bs) as [bs ->].
      { destruct b as [v|]; cbn; [|eauto].
        destruct (Hb v eq_refl); destruct v; cbn in *; eauto; done. }
      assert (∃ us, Http._set_url (default (PyStr (_url self)) u)
                    = inr us) as [us ->].
      { destruct u as [v|]; cbn; [|eauto].
        specialize (Hu v eq_refl). destruct v; cbn in *; eauto; done. }
      eauto.
  - intros r Hr.
    destruct (Http._set_body _) as [e|bs] eqn:Eb; [done|].
    destruct (Http._set_url _) as [e|us] eqn:Eu; [done|].
    injection Hr as <-. cbn.
    repeat split.
    + intros ->. cbn in Eu. by injection Eu.
    + intros ->. cbn in Eb. by injection Eb.
    + intros ->. cbn in Eb. by injection Eb.
Qed.

(** X6: [copy] never fails.  The copy has the url, status and body of the
    original under a new identity, so the tracker counts the two
    separately: tracking both adds the body length twice. *)
Theorem copy_counted_separately (self : Response) new (t : Tracker.t) :
  let r := mkResponse new (status self) (_url self) (body self) in
  copy self new = inr r ∧
  (new ≠ response_id self →
   Tracker.tracked self t = false → Tracker.tracked r t = false →
   Tracker.response_active_size (count_all [self; r] t) =
   Tracker.response_active_size t + 2 * Z.of_nat (length (body self))).
Proof.
  intros r. split; [reflexivity|].
  intros Hne Hs Hr.
  rewrite count_all_distinct.
  - unfold total_len. cbn [foldr body _body r]. lia.
  - cbn. repeat constructor; [|by intros ?%elem_of_nil].
    intros H%list_elem_of_singleton. congruence.
  - by repeat constructor.
Qed.

End ReplaceFacts.

(** ** More on the executor *)

Section ExecutorMore.

Context {World : Type}.

Implicit Types (st : St World) (request rq : Request) (log : list Event).

Variable truth : Truthiness.
Variable methods : Methods World.
Variable download_func : Request → World → Outcome * World.

(** *** What a run counts *)

Lemma stage_responses_app l1 l2 :
  stage_responses (l1 ++ l2) = stage_responses l1 ++ stage_responses l2.
Proof. unfold stage_responses. apply omap_app. Qed.

Lemma count_all_app rs1 rs2 t :
  count_all (rs1 ++ rs2) t = count_all rs2 (count_all rs1 t).
Proof. unfold count_all. apply foldl_app. Qed.

Lemma counted_invalid v t :
  negb (is_None v) && negb (isinstance_Response_or_Request v) = true →
  counted v t = t.
Proof. by destruct v. Qed.

Lemma process_request_from_tracker todo : ∀ request st d st' log,
  process_request_from truth download_func todo request st = (d, st', log) →
  tracker st' = count_all (stage_responses log) (tracker st).
Proof.
  induction todo as [|method todo IH]; intros request st d st' log H.
  - rewrite process_request_from_nil in H.
    destruct (download_func request (world st)) as [out w].
    by injection H as <- <- <-.
  - rewrite process_request_from_cons in H.
    destruct (call method request (world st)) as [[v|e] w];
      cbv zeta in H; [|by injection H as <- <- <-].
    destruct (negb _ && negb _) eqn:Ev.
    { injection H as <- <- <-.
      by rewrite counted_event_request, counted_invalid. }
    destruct (truthy truth v).
    { injection H as <- <- <-. by rewrite counted_event_request. }
    destruct (process_request_from truth download_func todo request _)
      as [[d2 st2] log2] eqn:E2.
    injection H as <- <- <-.
    apply IH in E2 as ->. by rewrite counted_event_request.
Qed.

Lemma process_exception_from_tracker todo : ∀ request failure st d st' log,
  process_exception_from truth todo request failure st = (d, st', log) →
  tracker st' = count_all (stage_responses log) (tracker st).
Proof.
  induction todo as [|method todo IH]; intros request failure st d st' log H.
  - cbn in H. by injection H as <- <- <-.
  - rewrite process_exception_from_cons in H.
    destruct (call method (request, value failure) (world st)) as [[v|e] w];
      cbv zeta in H; [|by injection H as <- <- <-].
    destruct (negb _ && negb _) eqn:Ev.
    { injection H as <- <- <-.
      by rewrite counted_event_exception, counted_invalid. }
    destruct (truthy truth v).
    { injection H as <- <- <-. by rewrite counted_event_exception. }
    destruct (process_exception_from truth todo request failure _)
      as [[d2 st2] log2] eqn:E2.
    injection H as <- <- <-.
    apply IH in E2 as ->. by rewrite counted_event_exception.
Qed.

Lemma process_response_from_tracker todo : ∀ request result st d st' log,
  process_response_from todo request result st = (d, st', log) →
  tracker st' = count_all (stage_responses log) (tracker st).
Proof.
  induction todo as [|method todo IH]; intros request result st d st' log H.
  - cbn in H. by injection H as <- <- <-.
  - rewrite process_response_from_cons in H.
    destruct (call method (request, result) (world st)) as [[v|e] w];
      [destruct v|]; cbv zeta in H;
      try (by injection H as <- <- <-).
    destruct (process_response_from todo request _ _)
      as [[d2 st2] log2] eqn:E2.
    injection H as <- <- <-.
    by apply IH in E2 as ->.
Qed.

Lemma process_response_tracker request response st d st' log :
  process_response methods request response st = (d, st', log) →
  tracker st' = count_all (stage_responses log) (tracker st).
Proof.
  unfold process_response.
  destruct (is_None response); [by intros [= <- <- <-]|].
  destruct (isinstance_Request response); [by intros [= <- <- <-]|].
  apply process_response_from_tracker.
Qed.

(** The calls of [_count_response_size] that the run itself makes. *)
Lemma download_tracker request st d st' log :
  download truth methods download_func request st = (d, st', log) →
  tracker st' = count_all (stage_responses log) (tracker st).
Proof.
  intros Hrun.
  apply download_phases in Hrun
    as (d1 & st1 & log1 & d2 & st2 & log2 & log3 &
        H1 & H2 & H3 & -> & _).
  rewrite !stage_responses_app, !count_all_app.
  apply process_request_from_tracker in H1 as <-.
  assert (tracker st2 = count_all (stage_responses log2) (tracker st1))
    as <-.
  { destruct d1; cbn in H2.
    - by injection H2 as <- <- <-.
    - by apply process_exception_from_tracker in H2. }
  destruct d2; cbn in H3.
  - by apply process_response_tracker in H3.
  - by injection H3 as <- <- <-.
Qed.

Lemma well_formed_count_all rs t :
  Tracker.well_formed t → Tracker.well_formed (count_all rs t).
Proof.
  revert t. induction rs as [|r rs IH]; intros t H; [done|].
  apply IH. by apply well_formed_count.
Qed.

Lemma count_all_size_le rs t :
  Tracker.response_active_size (count_all rs t) ≤
  Tracker.response_active_size t + total_len rs.
Proof.
  revert t. induction rs as [|r rs IH]; intros t.
  - unfold total_len. cbn. lia.
  - change (count_all (r :: rs) t)
      with (count_all rs (Tracker._count_response_size r t)).
    specialize (IH (Tracker._count_response_size r t)).
    rewrite count_size in IH.
    unfold total_len in *. cbn [foldr].
    destruct (Tracker.tracked r t); lia.
Qed.

Lemma tracked_count_all_inv rs r t :
  Tracker.tracked r (count_all rs t) = true →
  Tracker.tracked r t = true ∨ response_id r ∈ map response_id rs.
Proof.
  revert t. induction rs as [|r' rs IH]; intros t H; [by left|].
  change (count_all (r' :: rs) t)
    with (count_all rs (Tracker._count_response_size r' t)) in H.
  apply IH in H as [H|H]; [|right; cbn; by apply list_elem_of_further].
  unfold Tracker._count_response_size in H.
  destruct (Tracker.tracked r' t) eqn:E; [by left|].
  apply tracked_true in H. cbn in H.
  destruct (decide (response_id r' = response_id r)) as [Heq|Hne].
  - right. cbn. rewrite Heq. apply list_elem_of_here.
  - left. apply tracked_true. by rewrite lookup_insert_ne in H.
Qed.

(** X7: a run adds to the tracker only the Responses that stages returned;
    whatever the download function yields is not counted unless a stage
    returns it.  What is tracked after the run was tracked before it or
    was returned by a stage, the counter has grown by at most the bytes of
    the Responses that stages returned, a run in which no stage returned a
    Response leaves the tracker as it was, and the counter stays equal to
    the bytes of the tracking set. *)
Theorem run_counts_stage_responses request st d st' log :
  download truth methods download_func request st = (d, st', log) →
  (∀ r, Tracker.tracked r (tracker st') = true →
        Tracker.tracked r (tracker st) = true ∨
        response_id r ∈ map response_id (stage_responses log)) ∧
  Tracker.response_active_size (tracker st') ≤
    Tracker.response_active_size (tracker st) +
    total_len (stage_responses log) ∧
  (stage_responses log = [] → tracker st' = tracker st) ∧
  (Tracker.well_formed (tracker st) → Tracker.well_formed (tracker st')).
Proof.
  intros Hrun. apply download_tracker in Hrun as Ht. rewrite Ht.
  split; [intros r; apply tracked_count_all_inv|].
  split; [apply count_all_size_le|].
  split; [by intros ->|apply well_formed_count_all].
Qed.

(** *** How often the collaborators are called *)

Lemma count_kind_app kind l1 l2 :
  count_kind kind (l1 ++ l2) = (count_kind kind l1 + count_kind kind l2)%nat.
Proof. unfold count_kind. by rewrite List.filter_app, length_app. Qed.

Lemma count_kind_none kind l :
  Forall (λ e, kind e = false) l → count_kind kind l = 0%nat.
Proof.
  unfold count_kind. induction 1 as [|e l He _ IH]; [done|].
  cbn. by rewrite He.
Qed.

Lemma count_kind_le kind l : (count_kind kind l ≤ length l)%nat.
Proof. unfold count_kind. apply List.filter_length_le. Qed.

Lemma process_request_from_count todo : ∀ request st,
  let log := (process_request_from truth download_func todo request st).2 in
  (count_kind is_request_event log ≤ length todo)%nat ∧
  (count_kind is_download_event log ≤ 1)%nat.
Proof.
  induction todo as [|method todo IH]; intros request st.
  - rewrite process_request_from_nil.
    destruct (download_func request (world st)). cbn. lia.
  - rewrite process_request_from_cons.
    destruct (call method request (world st)) as [[v|e] w];
      cbv zeta; [|cbn; lia].
    destruct (negb _ && negb _); [cbn; lia|].
    destruct (truthy truth v); [cbn; lia|].
    specialize (IH request (mkSt (counted v (tracker st)) w)).
    destruct (process_request_from truth download_func todo request _)
      as [[d2 st2] log2]. cbn in *. unfold count_kind in *. cbn. lia.
Qed.

Lemma process_exception_from_count todo : ∀ request failure st,
  (length (process_exception_from truth todo request failure st).2
   ≤ length todo)%nat.
Proof.
  induction todo as [|method todo IH]; intros request failure st.
  - cbn. lia.
  - rewrite process_exception_from_cons.
    destruct (call method (request, value failure) (world st))
      as [[v|e] w]; cbv zeta; [|cbn; lia].
    destruct (negb _ && negb _); [cbn; lia|].
    destruct (truthy truth v); [cbn; lia|].
    specialize (IH request failure (mkSt (counted v (tracker st)) w)).
    destruct (process_exception_from truth todo request failure _)
      as [[d2 st2] log2]. cbn in *. lia.
Qed.

Lemma process_response_from_count todo : ∀ request result st,
  (length (process_response_from todo request result st).2
   ≤ length todo)%nat.
Proof.
  induction todo as [|method todo IH]; intros request result st.
  - cbn. lia.
  - rewrite process_response_from_cons.
    destruct (call method (request, result) (world st))
      as [[v|e] w];
      [destruct v|]; cbn; try lia.
    match goal with
    | |- context [process_response_from todo request ?v ?s] =>
        specialize (IH request v s);
        destruct (process_response_from todo request v s) as [[d2 st2] log2]
    end.
    cbn in *. lia.
Qed.

(** X8: in one run the download function is called at most once, and the
    methods of each deque are called at most once each: the log holds no
    more calls of a kind than the deque has methods. *)
Theorem run_calls_at_most_once request st :
  let log := (download truth methods download_func request st).2 in
  (count_kind is_download_event log ≤ 1)%nat ∧
  (count_kind is_request_event log
   ≤ length (methods_process_request methods))%nat ∧
  (count_kind is_exception_event log
   ≤ length (methods_process_exception methods))%nat ∧
  (count_kind is_response_event log
   ≤ length (methods_process_response methods))%nat.
Proof.
  destruct (download truth methods download_func request st)
    as [[d st'] log] eqn:Hrun.
  cbn [snd].
  apply download_phases in Hrun
    as (d1 & st1 & log1 & d2 & st2 & log2 & log3 &
        H1 & H2 & H3 & -> & K1 & K2 & K3).
  pose proof (process_request_from_count
                (methods_process_request methods) request st) as [C1 C2].
  unfold process_request in H1. rewrite H1 in C1, C2. cbn [snd] in C1, C2.
  assert (C3 : (length log2
                ≤ length (methods_process_exception methods))%nat).
  { destruct d1 as [v|f]; cbn in H2.
    - injection H2 as <- <- <-. cbn. lia.
    - pose proof (process_exception_from_count
                    (methods_process_exception methods) request f st1) as C.
      unfold process_exception in H2. by rewrite H2 in C. }
  assert (C4 : (length log3
                ≤ length (methods_process_response methods))%nat).
  { destruct d2 as [v|f]; cbn in H3.
    - unfold process_response in H3.
      destruct (is_None v); [injection H3 as <- <- <-; cbn; lia|].
      destruct (isinstance_Request v);
        [injection H3 as <- <- <-; cbn; lia|].
      pose proof (process_response_from_count
                    (methods_process_response methods) request v st2) as C.
      by rewrite H3 in C.
    - injection H3 as <- <- <-. cbn. lia. }
  rewrite !count_kind_app.
  rewrite (count_kind_none is_download_event log2),
          (count_kind_none is_download_event log3),
          (count_kind_none is_request_event log2),
          (count_kind_none is_request_event log3),
          (count_kind_none is_exception_event log1),
          (count_kind_none is_exception_event log3),
          (count_kind_none is_response_event log1),
          (count_kind_none is_response_event log2).
  - pose proof (count_kind_le is_exception_event log2).
    pose proof (count_kind_le is_response_event log3). lia.
  - revert K2. apply Forall_kind. by intros [].
  - revert K1. apply Forall_kind. by intros [].
  - revert K3. apply Forall_kind. by intros [].
  - revert K1. apply Forall_kind. by intros [].
  - revert K3. apply Forall_kind. by intros [].
  - revert K2. apply Forall_kind. by intros [].
  - revert K3. apply Forall_kind. by intros [].
  - revert K2. apply Forall_kind. by intros [].
Qed.

Lemma process_request_unfold request :
  process_request truth methods download_func request =
  process_request_from truth download_func
                       (methods_process_request methods) request.
Proof. reflexivity. Qed.

(** *** Short circuits and failures *)

(** X9: when a request stage returns a Request that is true, as every
    instance of the class Request itself is, nothing is called after it
    (no later request stage, no download, no exception or response stage)
    and the run ends with that Request.  The request stages called before
    it returned something false. *)
Theorem request_stage_returns_request
    request st d st' log l1 name rq q l2 :
  download truth methods download_func request st = (d, st', log) →
  log = l1 ++ EvProcessRequest name rq (Return (PyRequest q)) :: l2 →
  request_bool truth q = true →
  Forall (λ e, is_request_event e = true ∧
               ∃ v, event_outcome e = Return v ∧ truthy truth v = false)
         l1 ∧
  rq = request ∧
  l2 = [] ∧
  d = Succeeded (PyRequest q).
Proof.
  intros Hrun Hlog Hb.
  destruct (request_event_inv _ _ _ _ _ _ _ _ _ _ _ Hrun Hlog eq_refl)
    as (Hall & rest & st0 & d1 & st1 & l2' & d2 & st2 & log2 & log3 &
        Ht & H1 & H2 & H3 & -> & K2 & K3).
  split; [done|].
  destruct rest as [|method rest].
  { rewrite process_request_from_nil in H1.
    destruct (download_func request (world st0)). by injection H1. }
  destruct (process_request_from_head _ _ _ _ _ _ _ _ _ _ H1)
    as (out & w & E & [= -> -> <-]).
  rewrite process_request_from_cons, E in H1. cbn in H1.
  rewrite Hb in H1. injection H1 as <- <- <-.
  cbn in H2. injection H2 as <- <- <-.
  cbn in H3. by injection H3 as <- <- <-.
Qed.

(** X10: when a request stage raises, as [OffsiteMiddleware] does with
    [IgnoreRequest], neither a later request stage nor the download
    function is called.  The exception goes to the exception stages; when
    each of them returns [None], every one of them is called with it, the
    run fails with that exception and no response stage runs. *)
Theorem request_stage_raises request st d st' log l1 name rq e l2 :
  download truth methods download_func request st = (d, st', log) →
  log = l1 ++ EvProcessRequest name rq (Raise e) :: l2 →
  Forall (λ ev, is_request_event ev = false ∧
                is_download_event ev = false) l2 ∧
  (Forall (λ ev, is_exception_event ev = true →
                 event_outcome ev = Return PyNone) l2 →
   d = Failed (mkFailure e) ∧
   l2 = map (λ m, EvProcessException (__qualname__ m) request e
                                     (Return PyNone))
            (methods_process_exception methods)).
Proof.
  intros Hrun Hlog.
  destruct (request_event_inv _ _ _ _ _ _ _ _ _ _ _ Hrun Hlog eq_refl)
    as (_ & rest & st0 & d1 & st1 & l2' & d2 & st2 & log2 & log3 &
        Ht & H1 & H2 & H3 & -> & K2 & K3).
  destruct rest as [|method rest].
  { rewrite process_request_from_nil in H1.
    destruct (download_func request (world st0)). by injection H1. }
  destruct (process_request_from_head _ _ _ _ _ _ _ _ _ _ H1)
    as (out & w & E & [= -> -> <-]).
  rewrite process_request_from_cons, E in H1. cbn in H1.
  injection H1 as <- <- <-.
  cbn in H2. cbn [app].
  split; [by apply no_request_or_download|].
  intros Hall. unfold process_exception in H2.
  apply process_exception_from_all_none in H2 as (-> & _ & ->).
  - cbn in H3. injection H3 as <- <- <-.
    by rewrite app_nil_r.
  - apply Forall_app in Hall as [Hall _].
    apply Forall_forall. intros ev Hev.
    rewrite Forall_forall in Hall, K2. auto.
Qed.

(** X11: when an exception stage returns a Response that is true, as
    every instance of the class Response itself is, the failure is
    recovered: that Response has just been counted, so it is tracked, no
    later exception stage is called, and the rest of the run is the
    response phase on it. *)
Theorem exception_stage_recovers request st d st' log l1 name rq exc r l2 :
  download truth methods download_func request st = (d, st', log) →
  log = l1 ++ EvProcessException name rq exc (Return (PyResponse r)) :: l2 →
  response_bool truth r = true →
  Forall (λ e, is_response_event e = true) l2 ∧
  ∃ t0 w,
    let st1 := mkSt (Tracker._count_response_size r t0) w in
    Tracker.tracked r (tracker st1) = true ∧
    process_response methods request (PyResponse r) st1 = (d, st', l2).
Proof.
  intros Hrun Hlog Hb.
  destruct (exception_event_inv _ _ _ _ _ _ _ _ _ _ _ Hrun Hlog eq_refl)
    as (failure & rest & st0 & d2 & st2 & l2' & log3 &
        H2 & H3 & -> & K3).
  destruct rest as [|method rest]; [by injection H2|].
  destruct (process_exception_from_head _ _ _ _ _ _ _ _ _ _ H2)
    as (out & w & E & [= -> -> -> <-]).
  rewrite process_exception_from_cons, E in H2. cbn in H2.
  rewrite Hb in H2. injection H2 as <- <- <-.
  cbn in H3. cbn [app].
  split; [done|].
  exists (tracker st0), w. cbn zeta.
  split; [apply tracked_after_count|done].
Qed.

(** X12: when an exception stage returns a Request that is true, as every
    instance of the class Request itself is, the run ends there with that
    Request: no later exception stage and no response stage is called. *)
Theorem exception_stage_returns_request
    request st d st' log l1 name rq exc q l2 :
  download truth methods download_func request st = (d, st', log) →
  log = l1 ++ EvProcessException name rq exc (Return (PyRequest q)) :: l2 →
  request_bool truth q = true →
  l2 = [] ∧ d = Succeeded (PyRequest q).
Proof.
  intros Hrun Hlog Hb.
  destruct (exception_event_inv _ _ _ _ _ _ _ _ _ _ _ Hrun Hlog eq_refl)
    as (failure & rest & st0 & d2 & st2 & l2' & log3 &
        H2 & H3 & -> & K3).
  destruct rest as [|method rest]; [by injection H2|].
  destruct (process_exception_from_head _ _ _ _ _ _ _ _ _ _ H2)
    as (out & w & E & [= -> -> -> <-]).
  rewrite process_exception_from_cons, E in H2. cbn in H2.
  rewrite Hb in H2. injection H2 as <- <- <-.
  cbn in H3. by injection H3 as <- <- <-.
Qed.

(** What follows a call of the download function: the exception phase on
    a failure, then the response phase. *)
Lemma download_event_inv request st d st' log l1 rq out l2 :
  download truth methods download_func request st = (d, st', log) →
  log = l1 ++ EvDownload rq out :: l2 →
  rq = request ∧
  ∃ st1 d2 st2 log2 log3,
    addErrback (process_exception truth methods request) (deferred_of out)
               st1 = (d2, st2, log2) ∧
    addCallback (process_response methods request) d2 st2
      = (d, st', log3) ∧
    l2 = log2 ++ log3.
Proof.
  intros Hrun Hlog.
  destruct (request_event_inv _ _ _ _ _ _ _ _ _ _ _ Hrun Hlog eq_refl)
    as (_ & rest & st0 & d1 & st1 & l2' & d2 & st2 & log2 & log3 &
        Ht & H1 & H2 & H3 & -> & K2 & K3).
  destruct rest as [|method rest].
  2:{ by destruct (process_request_from_head _ _ _ _ _ _ _ _ _ _ H1)
        as (out0 & w & _ & [=]). }
  rewrite process_request_from_nil in H1.
  destruct (download_func request (world st0)) as [out0 w].
  injection H1 as <- <- -> -> <-.
  split; [done|].
  by exists (mkSt (tracker st0) w), d2, st2, log2, log3.
Qed.

(** X13: when the download function yields [None], the run fails with
    the TypeError of [process_response]; no exception stage and no
    response stage is called for it. *)
Theorem download_returns_none request st d st' log l1 rq l2 :
  download truth methods download_func request st = (d, st', log) →
  log = l1 ++ EvDownload rq (Return PyNone) :: l2 →
  l2 = [] ∧
  d = Failed (mkFailure (TypeError "Received None in process_response")).
Proof.
  intros Hrun Hlog.
  destruct (download_event_inv _ _ _ _ _ _ _ _ _ Hrun Hlog)
    as (_ & st1 & d2 & st2 & log2 & log3 & H2 & H3 & ->).
  cbn in H2. injection H2 as <- <- <-.
  cbn in H3. by injection H3 as <- <- <-.
Qed.

(** X14: when the download function yields a Request, the run ends with
    that Request and no response stage is called. *)
Theorem download_returns_request request st d st' log l1 rq q l2 :
  download truth methods download_func request st = (d, st', log) →
  log = l1 ++ EvDownload rq (Return (PyRequest q)) :: l2 →
  l2 = [] ∧ d = Succeeded (PyRequest q).
Proof.
  intros Hrun Hlog.
  destruct (download_event_inv _ _ _ _ _ _ _ _ _ Hrun Hlog)
    as (_ & st1 & d2 & st2 & log2 & log3 & H2 & H3 & ->).
  cbn in H2. injection H2 as <- <- <-.
  cbn in H3. by injection H3 as <- <- <-.
Qed.

(** *** The response phase as a chain *)

(** X15: the response stages form a chain.  When two response-stage calls
    follow each other in the log, the first returned a Response, which has
    just been counted and so is tracked when the second is called, and the
    second is called with exactly that Response and the run's request. *)
Theorem response_stages_chain
    request st d st' log l1 n1 rq1 in1 o1 n2 rq2 in2 o2 l2 :
  download truth methods download_func request st = (d, st', log) →
  log = l1 ++ EvProcessResponse n1 rq1 in1 o1
           :: EvProcessResponse n2 rq2 in2 o2 :: l2 →
  ∃ r todo t0 w,
    o1 = Return (PyResponse r) ∧ in2 = PyResponse r ∧
    rq1 = request ∧ rq2 = request ∧
    let st1 := mkSt (Tracker._count_response_size r t0) w in
    Tracker.tracked r (tracker st1) = true ∧
    process_response_from todo request (PyResponse r) st1
      = (d, st', EvProcessResponse n2 rq2 in2 o2 :: l2).
Proof.
  intros Hrun Hlog.
  destruct (response_event_inv _ _ _ _ _ _ _ _ _ _ _ Hrun Hlog eq_refl)
    as (rest & result & st0 & H3).
  destruct rest as [|method rest]; [by injection H3|].
  destruct (process_response_from_head _ _ _ _ _ _ _ _ _ H3)
    as (out & w & E & [= -> -> -> <-]).
  rewrite process_response_from_cons, E in H3.
  destruct o1 as [v|e]; [destruct v as [|b|s|z|r|q|c t]|];
    cbv zeta in H3; try (by injection H3).
  destruct (process_response_from rest request _ _)
    as [[d2 st2] log2] eqn:E2.
  injection H3 as -> -> ->.
  destruct rest as [|method2 rest]; [by injection E2|].
  destruct (process_response_from_head _ _ _ _ _ _ _ _ _ E2)
    as (out2 & w2 & _ & [= _ -> ->]).
  exists r, (method2 :: rest), (tracker st0), w.
  repeat split; [apply tracked_after_count|exact E2].
Qed.

(** X16: when the last call of a run is a response stage that returned a
    Response, that Response is the run's result and it is in the tracking
    set. *)
Theorem last_response_is_result request st d st' log l1 n rq rs r :
  download truth methods download_func request st = (d, st', log) →
  log = l1 ++ [EvProcessResponse n rq rs (Return (PyResponse r))] →
  d = Succeeded (PyResponse r) ∧
  Tracker.tracked r (tracker st') = true.
Proof.
  intros Hrun Hlog.
  destruct (response_event_inv _ _ _ _ _ _ _ _ _ _ _ Hrun Hlog eq_refl)
    as (rest & result & st0 & H3).
  destruct rest as [|method rest]; [by injection H3|].
  rewrite process_response_from_cons in H3.
  destruct (call method (request, result) (world st0)) as [[v|e] w] eqn:E;
    [destruct v|]; cbv zeta in H3;
    try (by injection H3).
  destruct (process_response_from rest request _ _)
    as [[d2 st2] log2] eqn:E2.
  injection H3 as -> -> _ _ _ <- ->.
  destruct rest as [|method2 rest].
  - cbn in E2. injection E2 as <- <-. cbn.
    split; [done|apply tracked_after_count].
  - rewrite process_response_from_cons in E2.
    destruct (call method2 _ _) as [[v|e] w2];
      [destruct v|]; cbv zeta in E2;
      try (destruct (process_response_from _ _ _ _) as [[??]?]);
      by injection E2.
Qed.

End ExecutorMore.

(** ** Feed slots from open to close *)

Section FeedExportRunFacts.

Import FeedExport FeedExportRun FeedSlots.

Open Scope nat_scope.

Implicit Types (slot : _FeedSlot) (slots : list _FeedSlot).

Lemma finish_exporting_slot i slot :
  (finish_exporting i slot).1 = finished slot.
Proof.
  unfold finish_exporting, finished.
  destruct slot as [u f se n ex]. by destruct ex.
Qed.

Lemma finish_exporting_started i slot :
  _exporting slot = true →
  (finish_exporting i slot).2 ++ [StorageStore i] = finish_and_store i.
Proof. intros H. unfold finish_exporting. by rewrite H. Qed.

Lemma per_position_ext {A C} (f g : nat → A → list C) (l : list A) : ∀ i,
  (∀ k x, l !! k = Some x → f (i + k) x = g (i + k) x) →
  per_position f i l = per_position g i l.
Proof.
  induction l as [|x l IH]; intros i H; [done|].
  cbn. f_equal.
  - specialize (H 0 x eq_refl). by rewrite Nat.add_0_r in H.
  - apply IH. intros k y Hk. specialize (H (S k) y Hk).
    by rewrite Nat.add_succ_r in H.
Qed.

Lemma per_position_app {A C} (f : nat → A → list C) (l1 l2 : list A) :
  ∀ i, per_position f i (l1 ++ l2) =
       per_position f i l1 ++ per_position f (i + length l1) l2.
Proof.
  induction l1 as [|x l1 IH]; intros i; cbn.
  - by rewrite Nat.add_0_r.
  - rewrite IH, Nat.add_succ_r. by rewrite (assoc_L (++)).
Qed.

Lemma per_position_fmap {A B C} (f : nat → B → list C) (g : A → B)
    (l : list A) : ∀ i,
  per_position f i (g <$> l) = per_position (λ k x, f k (g x)) i l.
Proof.
  induction l as [|x l IH]; intros i; cbn; [done|]. by rewrite IH.
Qed.

(** The loop of [close_spider] when no slot makes it return. *)
Lemma close_spider_from_all slots : ∀ i dl,
  forallb (λ s, negb (empty_unstored s)) slots = true →
  close_spider_from i slots dl =
  (all_stored (dl ++ seq i (length slots)),
   finished <$> slots,
   per_position (λ k s, (finish_exporting k s).2 ++ [StorageStore k])
                i slots).
Proof.
  induction slots as [|slot slots IH]; intros i dl H; cbn.
  - by rewrite app_nil_r.
  - cbn in H. apply andb_true_iff in H as [Hs H].
    apply negb_true_iff in Hs. rewrite Hs.
    rewrite (IH (S i) (dl ++ [i]) H).
    pose proof (finish_exporting_slot i slot) as Hf.
    destruct (finish_exporting i slot) as [slot' calls]. cbn in Hf.
    subst slot'. cbn. rewrite <- !(assoc_L (++)). reflexivity.
Qed.

(** X17: when no slot is both without items and with [store_empty]
    false, [close_spider] goes through every slot: each is finished and
    its file stored, once and in order, and what is returned is the
    [DeferredList] of all the store calls ([None] when there is no slot).
    Afterwards no slot is exporting. *)
Theorem close_spider_stores_all slots :
  forallb (λ s, negb (empty_unstored s)) slots = true →
  close_spider slots =
  (all_stored (seq 0 (length slots)),
   finished <$> slots,
   per_position (λ k s, (finish_exporting k s).2 ++ [StorageStore k])
                0 slots).
Proof. intros H. apply (close_spider_from_all slots 0 [] H). Qed.

Section Exporting.

Variable export_item : nat → PyValue → option Exception.

Lemma start_exporting_slot i slot :
  (start_exporting i slot).1 = started slot.
Proof.
  unfold start_exporting, started.
  destruct slot as [u f se n ex]. by destruct ex.
Qed.

Lemma item_scraped_from_ok item slots : ∀ i,
  (∀ k, i ≤ k < i + length slots → export_item k item = None) →
  item_scraped_from export_item i item slots =
  (None, with_items 1 <$> slots,
   per_position (λ k s, (start_exporting k s).2 ++
                        [ExporterExportItem k item]) i slots).
Proof.
  induction slots as [|slot slots IH]; intros i H; [done|].
  cbn [item_scraped_from per_position].
  pose proof (start_exporting_slot i slot) as Hs.
  destruct (start_exporting i slot) as [slot' calls]. cbn in Hs.
  subst slot'. rewrite (H i) by (cbn; lia).
  rewrite (IH (S i)) by (intros k Hk; apply H; cbn; lia).
  reflexivity.
Qed.

(** X18: when the exporters take the item, [item_scraped] gives it to the
    exporter of every slot, in order, after starting the exporters that
    were not started yet; every slot then has one more item and is
    exporting. *)
Theorem item_scraped_all item slots :
  (∀ k, k < length slots → export_item k item = None) →
  item_scraped export_item item slots =
  (None, with_items 1 <$> slots,
   per_position (λ k s, (start_exporting k s).2 ++
                        [ExporterExportItem k item]) 0 slots).
Proof.
  intros H. apply item_scraped_from_ok. intros k Hk. apply H. lia.
Qed.

Lemma item_scraped_from_raises item pre : ∀ slot post i e,
  (∀ k, i ≤ k < i + length pre → export_item k item = None) →
  export_item (i + length pre) item = Some e →
  item_scraped_from export_item i item (pre ++ slot :: post) =
  (Some e, (with_items 1 <$> pre) ++ started slot :: post,
   per_position (λ k s, (start_exporting k s).2 ++
                        [ExporterExportItem k item]) i (pre ++ [slot])).
Proof.
  induction pre as [|s pre IH]; intros slot post i e H He.
  - cbn [app item_scraped_from length per_position] in *.
    rewrite Nat.add_0_r in He.
    pose proof (start_exporting_slot i slot) as Hs.
    destruct (start_exporting i slot) as [slot' calls]. cbn in Hs.
    subst slot'. rewrite He. cbn. by rewrite app_nil_r.
  - cbn [app item_scraped_from length per_position] in *.
    pose proof (start_exporting_slot i s) as Hs.
    destruct (start_exporting i s) as [s' calls]. cbn in Hs.
    subst s'. rewrite (H i) by lia.
    rewrite (IH slot post (S i) e).
    + reflexivity.
    + intros k Hk. apply H. lia.
    + by rewrite Nat.add_succ_comm.
Qed.

(** X19: when the exporter of one slot raises on the item, [item_scraped]
    stops there.  The slots before have the item; that slot has been
    started but its count is as before; the slots after it never see the
    item. *)
Theorem item_scraped_raises item pre slot post e :
  (∀ k, k < length pre → export_item k item = None) →
  export_item (length pre) item = Some e →
  let '(raised, slots', calls) :=
    item_scraped export_item item (pre ++ slot :: post) in
  raised = Some e ∧
  slots' = (with_items 1 <$> pre) ++ started slot :: post ∧
  Forall (λ c, FeedExportRun.call_slot c ≤ length pre) calls.
Proof.
  intros H He. unfold item_scraped.
  rewrite (item_scraped_from_raises item pre slot post 0 e);
    [|intros k Hk; apply H; lia|done].
  repeat split.
  assert (Hgen : ∀ (l : list _FeedSlot) i,
    Forall (λ c, FeedExportRun.call_slot c < i + length l)
      (per_position (λ k s, (start_exporting k s).2 ++
                            [ExporterExportItem k item]) i l)).
  { induction l as [|s l IH]; intros i; cbn; [constructor|].
    apply Forall_app. split; [apply Forall_app; split|].
    - unfold start_exporting. destruct (negb (_exporting s)); cbn;
        repeat constructor; cbn; lia.
    - repeat constructor. cbn. lia.
    - eapply Forall_impl; [apply (IH (S i))|]. cbn. intros; lia. }
  eapply Forall_impl; [apply (Hgen (pre ++ [slot]) 0)|].
  cbn. intros c. rewrite length_app. cbn. lia.
Qed.

Lemma items_scraped_cons_ok item items slots :
  (∀ k, k < length slots → export_item k item = None) →
  (items_scraped export_item (item :: items) slots).1 =
  (items_scraped export_item items (with_items 1 <$> slots)).1.
Proof.
  intros H. cbn [items_scraped]. rewrite item_scraped_all by done.
  by destruct (items_scraped export_item items _) as [[??]?].
Qed.

Lemma items_scraped_ok items : ∀ item slots,
  (∀ it k, it ∈ item :: items → k < length slots →
           export_item k it = None) →
  (items_scraped export_item (item :: items) slots).1 =
  (None, with_items (S (length items)) <$> slots).
Proof.
  induction items as [|item' items IH]; intros item slots H.
  - rewrite items_scraped_cons_ok; [done|].
    intros k Hk. apply H; [left|done].
  - rewrite items_scraped_cons_ok.
    2:{ intros k Hk. apply H; [left|done]. }
    rewrite IH.
    2:{ intros it k Hit Hk. rewrite length_fmap in Hk.
        apply H; [by right|done]. }
    f_equal. rewrite <- list_fmap_compose.
    apply list_fmap_ext. intros ? s _. cbn.
    unfold with_items. cbn. f_equal. lia.
Qed.

(** X20: after at least one item was scraped and exported, [close_spider]
    never returns early: it finishes the exporter of every slot and
    stores every file, in order, and returns the [DeferredList] of all
    store calls. *)
Theorem scraped_then_close item items slots :
  (∀ it k, it ∈ item :: items → k < length slots →
           export_item k it = None) →
  let '(raised, slots', _) :=
    items_scraped export_item (item :: items) slots in
  raised = None ∧
  close_spider slots' =
  (all_stored (seq 0 (length slots)),
   (λ s, finished (with_items (S (length items)) s)) <$> slots,
   per_position (λ k _, finish_and_store k) 0 slots).
Proof.
  intros H. pose proof (items_scraped_ok items item slots H) as Heq.
  destruct (items_scraped export_item (item :: items) slots)
    as [[raised slots'] calls].
  cbn in Heq. injection Heq as -> ->.
  split; [done|].
  rewrite close_spider_stores_all.
  - rewrite length_fmap, <- list_fmap_compose, per_position_fmap.
    f_equal.
  - apply forallb_forall. intros s Hs.
    apply in_map_iff in Hs as (s0 & <- & _). reflexivity.
Qed.

End Exporting.

Section Opening.

Variable open_feed : nat → Feed → option Exception.

Lemma open_spider_from_ok feeds : ∀ slots,
  (∀ k f, open_feed k f = None) →
  open_spider_from open_feed feeds slots =
  (None, slots ++ (opened <$> feeds),
   per_position
     (λ k f, OpenFeed k ::
             if feed_store_empty f then [ExporterStartExporting k] else [])
     (length slots) feeds).
Proof.
  induction feeds as [|feed feeds IH]; intros slots H.
  - cbn. by rewrite app_nil_r.
  - cbn [open_spider_from]. rewrite H.
    unfold new_slot. cbn [store_empty].
    unfold start_exporting. cbn [_exporting negb].
    destruct (feed_store_empty feed) eqn:E; cbn.
    + rewrite IH by done. rewrite length_app, Nat.add_1_r.
      rewrite <- (assoc_L (++)). cbn. unfold opened. by rewrite E.
    + rewrite IH by done. rewrite length_app, Nat.add_1_r.
      rewrite <- (assoc_L (++)). cbn. unfold opened. by rewrite E.
Qed.

(** X21: when every feed can be opened, [open_spider] makes one slot per
    feed, in order, with no items; a slot is exporting from the start
    exactly when its feed has [store_empty] set. *)
Theorem open_spider_slots feeds :
  (∀ k f, open_feed k f = None) →
  open_spider open_feed feeds =
  (None, opened <$> feeds,
   per_position
     (λ k f, OpenFeed k ::
             if feed_store_empty f then [ExporterStartExporting k] else [])
     0 feeds).
Proof. intros H. apply (open_spider_from_ok feeds [] H). Qed.

(** X22: a spider that closes without having scraped an item.  At the
    first feed whose [store_empty] is false, [close_spider] only stores
    that feed's file and returns: the feeds before it were exported empty
    and stored, the feeds after it get no call at all. *)
Theorem open_then_close_without_items pre feed post :
  (∀ k f, open_feed k f = None) →
  forallb feed_store_empty pre = true →
  feed_store_empty feed = false →
  let '(raised, slots, _) :=
    open_spider open_feed (pre ++ feed :: post) in
  raised = None ∧
  close_spider slots =
  (StoreDeferred (length pre),
   (finished <$> (opened <$> pre)) ++ opened feed :: (opened <$> post),
   per_position (λ k _, finish_and_store k) 0 pre ++
     [StorageStore (length pre)]).
Proof.
  intros Hopen Hpre Hfeed. rewrite open_spider_slots by done.
  split; [done|].
  rewrite fmap_app, fmap_cons.
  assert (Hpre' : forallb (λ s, negb (empty_unstored s)) (opened <$> pre)
                  = true).
  { apply forallb_forall. intros s Hs.
    apply in_map_iff in Hs as (f & <- & Hf).
    rewrite forallb_forall in Hpre. specialize (Hpre f Hf).
    unfold empty_unstored, opened. cbn. by rewrite Hpre. }
  unfold close_spider.
  rewrite close_spider_from_early; [|done|].
  2:{ unfold empty_unstored, opened. cbn. by rewrite Hfeed. }
  rewrite (close_spider_from_all _ 0 [] Hpre'). cbn [fst snd].
  rewrite length_fmap, per_position_fmap. cbn [Nat.add].
  do 2 f_equal.
  apply per_position_ext. intros k f Hk. cbn.
  apply finish_exporting_started. cbn.
  rewrite forallb_forall in Hpre. apply Hpre.
  apply list_elem_of_In, list_elem_of_lookup. eauto.
Qed.

End Opening.

End FeedExportRunFacts.

(** ** The duplicates filter *)

Section DupeFilterFacts.

Import DupeFilter DupeLines.

Variable fingerprint : Request → string.

Implicit Types (self : t) (request : Request).

Lemma string_app_assoc (s1 s2 s3 : string) :
  (s1 +:+ s2) +:+ s3 = s1 +:+ (s2 +:+ s3).
Proof.
  induction s1 as [|c s1 IH]; [done|].
  change (String c ((s1 +:+ s2) +:+ s3) = String c (s1 +:+ (s2 +:+ s3))).
  by rewrite IH.
Qed.

Lemma string_app_nil_r (s : string) : s +:+ EmptyString = s.
Proof.
  induction s as [|c s IH]; [done|].
  change (String c (s +:+ EmptyString) = String c s). by rewrite IH.
Qed.

Lemma request_seen_known request self :
  fingerprint request ∈ fingerprints self →
  request_seen fingerprint request self = (SeenTrue, self).
Proof.
  intros H. unfold request_seen, request_fingerprint.
  by rewrite bool_decide_eq_true_2.
Qed.

Lemma request_seen_new request self :
  fingerprint request ∉ fingerprints self →
  request_seen fingerprint request self =
  (SeenNone,
   mk ((λ text, text +:+ (fingerprint request +:+ LF)) <$> file self)
      ({[fingerprint request]} ∪ fingerprints self)
      (logdupes self) (debug self)).
Proof.
  intros H. unfold request_seen, request_fingerprint.
  rewrite bool_decide_eq_false_2 by done. by destruct (file self).
Qed.

(** X23: [request_seen] answers [True] exactly for a request whose
    fingerprint is already in the set.  After the call the fingerprint is
    in the set, so any later request with that fingerprint is answered
    [True] and changes nothing. *)
Theorem request_seen_detects request self :
  let '(seen, self') := request_seen fingerprint request self in
  (seen_truthy seen = true ↔ fingerprint request ∈ fingerprints self) ∧
  fingerprints self' = {[fingerprint request]} ∪ fingerprints self ∧
  (∀ request', fingerprint request' = fingerprint request →
     request_seen fingerprint request' self' = (SeenTrue, self')).
Proof.
  destruct (decide (fingerprint request ∈ fingerprints self)) as [H|H].
  - rewrite request_seen_known by done. cbn.
    split; [done|]. split; [set_solver|].
    intros request' Heq. apply request_seen_known. by rewrite Heq.
  - rewrite request_seen_new by done. cbn.
    split; [split; [done|by intros ?]|]. split; [done|].
    intros request' Heq. apply request_seen_known. cbn.
    rewrite Heq. set_solver.
Qed.

(** X24: over any sequence of requests, the fingerprints written to the
    file are those of the requests answered with nothing, one line each,
    appended in order.  None of them was in the set before and none is
    written twice; the set ends as the old set with those added.  Without
    a file nothing is written. *)
Theorem requests_seen_file requests : ∀ self,
  let '(seen, self') := requests_seen fingerprint requests self in
  let new := unseen fingerprint requests seen in
  length seen = length requests ∧
  NoDup new ∧
  (∀ fp, fp ∈ new → fp ∉ fingerprints self) ∧
  fingerprints self' = list_to_set new ∪ fingerprints self ∧
  file self' = (λ text, text +:+ lines new) <$> file self ∧
  logdupes self' = logdupes self ∧ debug self' = debug self.
Proof.
  induction requests as [|request requests IH]; intros self.
  - cbn. repeat split; try done.
    + constructor.
    + intros fp H. by apply elem_of_nil in H.
    + set_solver.
    + destruct (file self); cbn; [|done]. by rewrite string_app_nil_r.
  - cbn [requests_seen].
    destruct (decide (fingerprint request ∈ fingerprints self)) as [H|H].
    + rewrite request_seen_known by done.
      specialize (IH self).
      destruct (requests_seen fingerprint requests self) as [seen self'].
      cbn in *. destruct IH as (Hlen & Hnd & Hnew & Hset & Hfile & Hrest).
      repeat split; auto; tauto.
    + rewrite request_seen_new by done.
      match goal with
      | |- context [requests_seen fingerprint requests ?s] =>
          specialize (IH s);
          destruct (requests_seen fingerprint requests s) as [seen self']
      end.
      cbn in *. destruct IH as (Hlen & Hnd & Hnew & Hset & Hfile & Hrest).
      split; [by rewrite Hlen|].
      split.
      { constructor; [|done]. intros Hin. apply Hnew in Hin. set_solver. }
      split.
      { intros fp [->|Hin]%elem_of_cons; [done|].
        apply Hnew in Hin. set_solver. }
      split; [rewrite Hset; set_solver|].
      split; [|tauto].
      rewrite Hfile. destruct (file self); cbn; [|done].
      by rewrite !string_app_assoc.
Qed.

(** X25: [log] counts every filtered request in the stats.  With [debug]
    it writes one message per request; without, it writes a message for
    the first request only and none afterwards. *)
Theorem log_first_duplicate_only requests : ∀ self,
  let '(self', effects) := log_all requests self in
  length (List.filter is_stats effects) = length requests ∧
  length (List.filter is_debug effects) =
    (if debug self then length requests
     else if logdupes self then Nat.min 1 (length requests)
     else 0%nat) ∧
  fingerprints self' = fingerprints self ∧ file self' = file self.
Proof.
  induction requests as [|request requests IH]; intros self.
  - cbn. repeat split. by repeat case_match.
  - cbn [log_all]. unfold log.
    destruct (debug self) eqn:Ed; [|destruct (logdupes self) eqn:El].
    + specialize (IH self).
      destruct (log_all requests self) as [self' effects].
      rewrite Ed in IH. destruct IH as (H1 & H2 & H3 & H4).
      cbn. rewrite H1, H2. by repeat split.
    + match goal with
      | |- context [log_all requests ?s] =>
          specialize (IH s);
          destruct (log_all requests s) as [self' effects]
      end.
      cbn in IH. destruct IH as (H1 & H2 & H3 & H4).
      cbn. rewrite H1, H2. by repeat split.
    + specialize (IH self).
      destruct (log_all requests self) as [self' effects].
      rewrite Ed, El in IH. destruct IH as (H1 & H2 & H3 & H4).
      cbn. rewrite H1, H2. by repeat split.
Qed.

End DupeFilterFacts.

(** ** The offsite middleware *)

Section OffsiteFacts.

Import Offsite.

Variable dont_filter : Request → bool.
Variable hostname : Request → option string.
Variable host_regex : string → bool.

Lemma new_domain_Some domain self d :
  new_domain domain self = Some d →
  domain = Some d ∧ d ∉ domains_seen self.
Proof.
  unfold new_domain. destruct domain as [d'|]; [|done].
  destruct (negb (Nat.eqb (String.length d') 0)); [|done].
  cbn. case_bool_decide; [done|]. by intros [= ->].
Qed.

Lemma new_domain_None domain self :
  new_domain domain self = None →
  ∀ d, domain = Some d → d = EmptyString ∨ d ∈ domains_seen self.
Proof.
  unfold new_domain. intros H d ->.
  destruct d as [|c d]; [by left|]. cbn in H.
  case_bool_decide; [by right|done].
Qed.

Lemma effect_counts d request :
  length (List.filter (is_stat "offsite/filtered")
            [LoggerDebug d request; StatsIncValue "offsite/domains"])
    = 0%nat ∧
  length (List.filter (is_stat "offsite/filtered")
            [StatsIncValue "offsite/filtered"]) = 1%nat ∧
  length (List.filter (is_stat "offsite/domains")
            [LoggerDebug d request; StatsIncValue "offsite/domains"])
    = 1%nat ∧
  length (List.filter (is_stat "offsite/domains")
            [StatsIncValue "offsite/filtered"]) = 0%nat.
Proof. by vm_compute. Qed.

(** X26: over any sequence of requests, every request that has
    [dont_filter] set or whose host matches is let through ([None]), and
    every other one raises [IgnoreRequest] and is counted once under
    [offsite/filtered].  [offsite/domains] is counted once for each domain
    that enters [domains_seen], so since [spider_opened] it counts the
    different domains filtered. *)
Theorem offsite_stats requests : ∀ self,
  let '(outs, self', effects) :=
    process_requests dont_filter hostname host_regex requests self in
  outs = (λ request, if allowed dont_filter hostname host_regex request
                     then Return PyNone
                     else Raise IgnoreRequest) <$> requests ∧
  length (List.filter (is_stat "offsite/filtered") effects) =
    length (List.filter
              (λ request,
                 negb (allowed dont_filter hostname host_regex request))
              requests) ∧
  (length (List.filter (is_stat "offsite/domains") effects)
   + size (domains_seen self) = size (domains_seen self'))%nat ∧
  domains_seen self ⊆ domains_seen self'.
Proof.
  induction requests as [|request requests IH]; intros self.
  - cbn. by repeat split.
  - cbn [Offsite.process_requests]. unfold Offsite.process_request.
    cbn [fmap list_fmap List.filter].
    destruct (allowed dont_filter hostname host_regex request) eqn:Ea.
    + specialize (IH self).
      destruct (process_requests dont_filter hostname host_regex
                  requests self) as [[outs self'] effects].
      destruct IH as (-> & H2 & H3 & H4). cbn. by repeat split.
    + destruct (new_domain (hostname request) self) as [d|] eqn:En.
      * apply new_domain_Some in En as [_ Hd].
        specialize (IH (mk ({[d]} ∪ domains_seen self))).
        destruct (process_requests dont_filter hostname host_regex
                    requests _) as [[outs self'] effects].
        destruct IH as (-> & H2 & H3 & H4).
        cbn [domains_seen] in *.
        rewrite size_union, size_singleton in H3 by set_solver.
        rewrite <- !(assoc_L (++)), !List.filter_app, !length_app.
        cbn [app].
        destruct (effect_counts d request) as (-> & -> & -> & ->).
        repeat split; [cbn; lia|lia|set_solver].
      * specialize (IH self).
        destruct (process_requests dont_filter hostname host_regex
                    requests self) as [[outs self'] effects].
        destruct IH as (-> & H2 & H3 & H4).
        rewrite !List.filter_app, !length_app.
        destruct (effect_counts EmptyString request) as (_ & -> & _ & ->).
        repeat split; [cbn; lia|cbn; lia|done].
Qed.

(** X27: with [OffsiteMiddleware] first among the request stages, a
    request it does not let through is never downloaded: the run's first
    call is the middleware raising [IgnoreRequest], and neither another
    request stage nor the download function is called after it.  When no
    middleware has a [process_exception], the run fails with
    [IgnoreRequest]. *)
Theorem offsite_request_not_downloaded
    truth (methods : Methods (t * list Effect)) rest download_func
    request st :
  methods_process_request methods =
    method dont_filter hostname host_regex :: rest →
  allowed dont_filter hostname host_regex request = false →
  let '(d, st', log) := download truth methods download_func request st in
  ∃ l2,
    log = EvProcessRequest "OffsiteMiddleware.process_request" request
                           (Raise IgnoreRequest) :: l2 ∧
    Forall (λ ev, is_request_event ev = false ∧
                  is_download_event ev = false) l2 ∧
    (methods_process_exception methods = [] →
     d = Failed (mkFailure IgnoreRequest) ∧ l2 = [] ∧
     tracker st' = tracker st).
Proof.
  intros Hm Ha.
  destruct (download truth methods download_func request st)
    as [[d st'] log] eqn:Hrun.
  apply download_phases in Hrun
    as (d1 & st1 & log1 & d2 & st2 & log2 & log3 &
        H1 & H2 & H3 & -> & K1 & K2 & K3).
  rewrite process_request_unfold, Hm, process_request_from_cons in H1.
  cbn [call method] in H1. unfold Offsite.process_request in H1.
  rewrite Ha in H1.
  destruct (new_domain (hostname request) (world st).1) as [dom|];
    cbn in H1; injection H1 as <- <- <-.
  all: exists (log2 ++ log3); split; [done|]; split.
  all: try (apply Forall_app; split;
            [eapply Forall_impl; [exact K2|]; by intros []
            |eapply Forall_impl; [exact K3|]; by intros []]).
  all: intros He; cbn in H2; unfold process_exception in H2;
       rewrite He in H2; cbn in H2; injection H2 as <- <- <-;
       cbn in H3; by injection H3 as <- <- <-.
Qed.

End OffsiteFacts.

(** ** The further properties at concrete inputs *)

Section MoreConcrete.

Import Examples MoreExamples.

Lemma release_undoes_track_witness :
  Tracker.finalize_object (response_id R2)
    (Tracker._count_response_size R2 (Tracker.run ops Tracker.init)) =
  Tracker.run ops Tracker.init.
Proof. exact (release_undoes_track ops R2 eq_refl). Defined.

Lemma release_untracked_noop_witness :
  Tracker.finalize_object 3%positive (Tracker.run ops Tracker.init) =
  Tracker.run ops Tracker.init.
Proof. exact (release_untracked_noop ops 3%positive eq_refl). Defined.

Lemma count_all_distinct_witness :
  Tracker.response_active_size (count_all [R; R2] Tracker.init) = 0 + 5.
Proof.
  refine (count_all_distinct [R; R2] Tracker.init _ _).
  - cbn. apply NoDup_cons. split; [|apply NoDup_singleton].
    intros H. apply list_elem_of_singleton in H. discriminate H.
  - repeat constructor.
Defined.

Lemma replace_succeeds_iff_witness :
  ∃ r, ResponseMethods.replace R 7%positive
         (ResponseMethods.mkKwargs None None (Some (PyBytes []))) = inr r.
Proof.
  apply (proj1 (replace_succeeds_iff R 7%positive _)).
  split.
  - intros v H. discriminate H.
  - intros v H. injection H as <-. right. reflexivity.
Defined.

Lemma copy_counted_separately_witness :
  Tracker.response_active_size
    (count_all [R; mkResponse 7%positive (status R) (_url R) (body R)]
               Tracker.init) = 0 + 2 * 3.
Proof.
  refine (proj2 (copy_counted_separately R 7%positive Tracker.init) _ _ _).
  - discriminate.
  - reflexivity.
  - reflexivity.
Defined.

Lemma run_counts_stage_responses_witness :
  Tracker.response_active_size (tracker (run mws_chain download_R).1.2)
    ≤ 0 + total_len [R2; R] ∧
  tracker (run [] download_R).1.2 = tracker st0 ∧
  Tracker.well_formed (tracker (run mws_chain download_R).1.2).
Proof.
  split; [|split].
  - refine (proj1 (proj2 (run_counts_stage_responses all_true
      (add_middlewares no_methods mws_chain) download_R request0 st0
      _ _ [download_event; inner_event; outer_event] _))).
    reflexivity.
  - refine (proj1 (proj2 (proj2 (run_counts_stage_responses all_true
      (add_middlewares no_methods []) download_R request0 st0
      _ _ [download_event] _))) _); reflexivity.
  - refine (proj2 (proj2 (proj2 (run_counts_stage_responses all_true
      (add_middlewares no_methods mws_chain) download_R request0 st0
      _ _ [download_event; inner_event; outer_event] _))) _);
      [reflexivity|apply well_formed_init].
Defined.

Lemma request_stage_returns_request_witness :
  (run mws_bounce download_R).1.1 = Succeeded (PyRequest request1).
Proof.
  refine (proj2 (proj2 (proj2 (request_stage_returns_request all_true
    (add_middlewares no_methods mws_bounce) download_R request0 st0
    _ _ _ [] "Bounce.process_request" request0 request1 [] _ _ _))));
    reflexivity.
Defined.

Lemma request_stage_raises_witness :
  (run mws_drop download_R).1.1 = Failed (mkFailure ignore_request).
Proof.
  refine (proj1 (proj2 (request_stage_raises all_true
    (add_middlewares no_methods mws_drop) download_R request0 st0
    _ _ _ [] "Drop.process_request" request0 ignore_request [] _ _) _));
    [reflexivity|reflexivity|constructor].
Defined.

Lemma exception_stage_recovers_witness :
  ∃ t0 (w : ()),
    let st1 := mkSt (Tracker._count_response_size R t0) w in
    Tracker.tracked R (tracker st1) = true ∧
    process_response (add_middlewares no_methods mws_fallback) request0
                     (PyResponse R) st1 =
    ((run mws_fallback download_timeout).1.1,
     (run mws_fallback download_timeout).1.2, []).
Proof.
  refine (proj2 (exception_stage_recovers all_true
    (add_middlewares no_methods mws_fallback) download_timeout request0 st0
    _ _ _ [EvDownload request0 (Raise timeout)]
    "Fallback.process_exception" request0 timeout R [] _ _ _));
    reflexivity.
Defined.

Lemma exception_stage_returns_request_witness :
  (run mws_retry download_timeout).1.1 = Succeeded (PyRequest request1).
Proof.
  refine (proj2 (exception_stage_returns_request all_true
    (add_middlewares no_methods mws_retry) download_timeout request0 st0
    _ _ _ [EvDownload request0 (Raise timeout)]
    "Retry.process_exception" request0 timeout request1 [] _ _ _));
    reflexivity.
Defined.

Lemma download_returns_none_witness :
  (run [] download_none).1.1 =
  Failed (mkFailure (TypeError "Received None in process_response")).
Proof.
  refine (proj2 (download_returns_none all_true
    (add_middlewares no_methods []) download_none request0 st0
    _ _ _ [] request0 [] _ _)); reflexivity.
Defined.

Lemma download_returns_request_witness :
  (run [] download_request1).1.1 = Succeeded (PyRequest request1).
Proof.
  refine (proj2 (download_returns_request all_true
    (add_middlewares no_methods []) download_request1 request0 st0
    _ _ _ [] request0 request1 [] _ _)); reflexivity.
Defined.

Lemma response_stages_chain_witness :
  ∃ r todo t0 (w : ()),
    Return (PyResponse R2) = Return (PyResponse r) ∧
    PyResponse R2 = PyResponse r ∧
    request0 = request0 ∧ request0 = request0 ∧
    let st1 := mkSt (Tracker._count_response_size r t0) w in
    Tracker.tracked r (tracker st1) = true ∧
    process_response_from todo request0 (PyResponse r) st1 =
    ((run mws_chain download_R).1.1, (run mws_chain download_R).1.2,
     [outer_event]).
Proof.
  refine (response_stages_chain all_true
    (add_middlewares no_methods mws_chain) download_R request0 st0
    _ _ _ [download_event]
    "Inner.process_response" request0 (PyResponse R)
    (Return (PyResponse R2))
    "Outer.process_response" request0 (PyResponse R2)
    (Return (PyResponse R)) [] _ _); reflexivity.
Defined.

Lemma last_response_is_result_witness :
  (run mws_chain download_R).1.1 = Succeeded (PyResponse R) ∧
  Tracker.tracked R (tracker (run mws_chain download_R).1.2) = true.
Proof.
  refine (last_response_is_result all_true
    (add_middlewares no_methods mws_chain) download_R request0 st0
    _ _ _ [download_event; inner_event]
    "Outer.process_response" request0 (PyResponse R2) R _ _); reflexivity.
Defined.

Lemma close_spider_stores_all_witness :
  (FeedExport.close_spider [slot_a; slot_c]).1.1 =
  FeedExport.DeferredList [0; 1]%nat.
Proof.
  exact (f_equal (λ x, x.1.1)
           (close_spider_stores_all [slot_a; slot_c] eq_refl)).
Defined.

Lemma item_scraped_all_witness :
  (FeedExportRun.item_scraped export_ok item slots).1.2 =
  FeedSlots.with_items 1 <$> slots.
Proof.
  exact (f_equal (λ x, x.1.2)
           (item_scraped_all export_ok item slots (λ _ _, eq_refl))).
Defined.

Lemma item_scraped_raises_witness :
  (FeedExportRun.item_scraped export_fails_at_1 item slots).1.1 =
  Some export_error.
Proof.
  refine (proj1 (item_scraped_raises export_fails_at_1 item
                   [slot_a] slot_b [slot_c] export_error _ eq_refl)).
  intros k Hk. destruct k; [reflexivity|cbn in Hk; lia].
Defined.

Lemma scraped_then_close_witness :
  (FeedExport.close_spider
     (FeedExportRun.items_scraped export_ok [item] slots).1.2).1.1 =
  FeedExport.DeferredList [0; 1; 2]%nat.
Proof.
  exact (f_equal (λ x, x.1.1)
           (proj2 (scraped_then_close export_ok item [] slots
                     (λ _ _ _ _, eq_refl)))).
Defined.

Lemma open_spider_slots_witness :
  (FeedExportRun.open_spider open_ok [feed_a; feed_b; feed_c]).1.2 =
  FeedSlots.opened <$> [feed_a; feed_b; feed_c].
Proof.
  exact (f_equal (λ x, x.1.2)
           (open_spider_slots open_ok [feed_a; feed_b; feed_c]
              (λ _ _, eq_refl))).
Defined.

Lemma open_then_close_without_items_witness :
  (FeedExport.close_spider
     (FeedExportRun.open_spider open_ok [feed_a; feed_b; feed_c]).1.2).1.1 =
  FeedExport.StoreDeferred 1.
Proof.
  exact (f_equal (λ x, x.1.1)
           (proj2 (open_then_close_without_items open_ok
                     [feed_a] feed_b [feed_c]
                     (λ _ _, eq_refl) eq_refl eq_refl))).
Defined.

Lemma request_seen_detects_witness :
  (DupeFilter.request_seen request_url request0
     (DupeFilter.request_seen request_url request0
        (DupeFilter.init false)).2).1 = DupeFilter.SeenTrue.
Proof.
  exact (f_equal fst
           (proj2 (proj2 (request_seen_detects request_url request0
                            (DupeFilter.init false)))
                  request0 eq_refl)).
Defined.

Lemma requests_seen_file_witness :
  DupeFilter.file
    (DupeFilter.requests_seen request_url requests dupefilter).2 =
  Some (DupeLines.lines ["http://example.com/"; "http://example.com/next"]).
Proof.
  exact (proj1 (proj2 (proj2 (proj2 (proj2
           (requests_seen_file request_url requests dupefilter)))))).
Defined.

Lemma offsite_request_not_downloaded_witness :
  (download all_true offsite_methods offsite_download request0
            offsite_st0).1.1 =
  Failed (mkFailure Offsite.IgnoreRequest).
Proof.
  pose proof (offsite_request_not_downloaded
                (λ _, false) (λ r, Some (request_url r)) (λ _, false)
                all_true offsite_methods [] offsite_download request0
                offsite_st0 eq_refl eq_refl) as H.
  destruct (download all_true offsite_methods offsite_download request0
                     offsite_st0)
    as [[d st'] log].
  destruct H as (l2 & _ & _ & H).
  exact (proj1 (H eq_refl)).
Defined.

End MoreConcrete.
